(** * Dining philosophers with a host: a model of [philosophers.go]

    The program has three kinds of goroutines: [main], one [Host] and five
    [Philosopher.eat].  Each of them is sequential code that talks to the
    others through channels, mutexes and a [sync.WaitGroup].  Every goroutine
    is modelled by the list of events it performs, as a function of what it
    receives; the [Host] additionally threads its map [philosophersEating]. *)

From Stdlib Require Import ZArith String List Sorted Lia.
From stdpp Require Import base gmap list strings fin_maps.

Local Open Scope string_scope.
Local Open Scope list_scope.
Local Open Scope Z_scope.

(** ** Constants *)

Definition maxPhilosophers : Z := 5.
Definition maxChopSticks : Z := 5.
Definition maxTimeToEat : Z := 3.

Definition wantToEat : string := "wantToEat".
Definition finishedEating : string := "finishedEating".

(** ** Data *)

(** A [*ChopStick] is the address of one of the mutexes allocated by [main];
    a [chan bool] is the identity of a channel created by [make]. *)
Definition ChopStickPtr : Type := nat.
Definition ChanBool : Type := nat.

Record Philosopher : Type := mkPhilosopher {
  id : Z;
  countEating : Z;
  leftChopStick : ChopStickPtr;
  rightChopStick : ChopStickPtr;
  feedbackChannel : ChanBool
}.

Record Request : Type := mkRequest {
  command : string;
  philosopher : Philosopher
}.

(** Go's [int] on a 64-bit platform: subtraction wraps around. *)
Definition int_wrap (z : Z) : Z := (z + 2 ^ 63) mod 2 ^ 64 - 2 ^ 63.
Definition int_sub (a b : Z) : Z := int_wrap (a - b).

(** [math.Abs(float64(d)) == 1.0].  The conversion of an [int] to [float64]
    is monotone and exact on small integers, so the result is [1.0] or
    [-1.0] exactly when [d] is [1] or [-1]. *)
Definition abs_float64_is_one (d : Z) : bool := Z.abs d =? 1.

(** ** Events *)

Inductive thread : Type :=
| TMain
| THost
| TPhilosopher (n : nat).

Inductive fmt_arg : Type :=
| ArgInt (z : Z)
| ArgStr (s : string).

Inductive event : Type :=
| EPrintf (format : string) (args : list fmt_arg)
| EPrintln (s : string)
| ESleep (ms : Z)
| ESendRequest (r : Request)            (* requestChan <- r *)
| ERecvRequest (r : Request)            (* r := <-requestChan *)
| ESendFeedback (c : ChanBool) (b : bool)  (* c <- b *)
| ERecvFeedback (c : ChanBool) (b : bool)  (* b := <-c *)
| ELock (m : ChopStickPtr)
| EUnlock (m : ChopStickPtr)
| EWgAdd (delta : Z)
| EWgDone
| EWgWait
| ECloseFeedback (c : ChanBool)
| ECloseRequests
| EGo (t : thread).

(** ** The host *)

Definition RejectRequestToEat (philosopher : Philosopher) (rejectReason : string)
  : list event :=
  [ EPrintf "Host rejects request to eat from %d, reason %s\n"
            [ArgInt (id philosopher); ArgStr rejectReason];
    ESendFeedback (feedbackChannel philosopher) false ].

Definition AcceptRequestToEat (philosopher : Philosopher) : list event :=
  [ EPrintf "Host accepts request to eat from %d\n" [ArgInt (id philosopher)];
    ESendFeedback (feedbackChannel philosopher) true ].

(** One iteration of the [for] loop of [Host], on the request it received.
    [None] is a run-time panic ([keys[0]] out of range). *)
Definition Host_step (philosophersEating : gmap Z Philosopher) (request : Request)
  : option (gmap Z Philosopher * list event) :=
  if String.eqb (command request) wantToEat then
    if Nat.eqb (size philosophersEating) 0 then
      Some (<[id (philosopher request) := philosopher request]> philosophersEating,
            AcceptRequestToEat (philosopher request))
    else if Nat.eqb (size philosophersEating) 1 then
      let keys := (map_to_list philosophersEating).*1 in
      match keys !! 0%nat with
      | None => None
      | Some philosopherCurrentlyEating =>
        let philosopherAskingToEat := id (philosopher request) in
        if (philosopherCurrentlyEating =? 0) && (philosopherAskingToEat =? maxPhilosophers) then
          Some (philosophersEating,
                RejectRequestToEat (philosopher request) "Neighborhood 0-")
        else if (philosopherCurrentlyEating =? maxPhilosophers) && (philosopherAskingToEat =? 0) then
          Some (philosophersEating,
                RejectRequestToEat (philosopher request) "Neiborhood -0")
        else if abs_float64_is_one (int_sub philosopherAskingToEat philosopherCurrentlyEating) then
          Some (philosophersEating,
                RejectRequestToEat (philosopher request) "Neighborhood")
        else if philosopherAskingToEat =? philosopherCurrentlyEating then
          Some (philosophersEating,
                RejectRequestToEat (philosopher request) "Philosopher alread eating")
        else
          Some (philosophersEating, AcceptRequestToEat (philosopher request))
      end
    else
      Some (philosophersEating,
            RejectRequestToEat (philosopher request)
                               "All allowed philoshopers are already eating")
  else if String.eqb (command request) finishedEating then
    Some (delete (id (philosopher request)) philosophersEating, [])
  else
    Some (philosophersEating, []).

(** The loop of [Host] on the requests it receives, in order, starting from
    the map it is given. *)
Fixpoint Host_loop (philosophersEating : gmap Z Philosopher) (requests : list Request)
  : option (gmap Z Philosopher * list event) :=
  match requests with
  | [] => Some (philosophersEating, [])
  | request :: rest =>
    match Host_step philosophersEating request with
    | None => None
    | Some (philosophersEating', out) =>
      match Host_loop philosophersEating' rest with
      | None => None
      | Some (final, out') => Some (final, ERecvRequest request :: out ++ out')
      end
    end
  end.

(** [Host] starts from [make(map[int]Philosopher)]. *)
Definition Host (requests : list Request) : option (gmap Z Philosopher * list event) :=
  Host_loop ∅ requests.

(** The replies a list of events sends on feedback channels. *)
Definition feedback_sends (out : list event) : list (ChanBool * bool) :=
  flat_map (fun e => match e with ESendFeedback c b => [(c, b)] | _ => [] end) out.

(** ** The philosopher *)

(** What one iteration of the loop of [eat] takes from outside: the two
    random draws and the value received on the feedback channel. *)
Record round : Type := mkRound {
  think_rand : Z;   (* rand.Intn(300) *)
  reply : bool;     (* <-philosopher.feedbackChannel *)
  eat_rand : Z      (* rand.Intn(500) *)
}.

Definition set_countEating (philosopher : Philosopher) (n : Z) : Philosopher :=
  mkPhilosopher (id philosopher) n (leftChopStick philosopher)
                (rightChopStick philosopher) (feedbackChannel philosopher).

(** The body of [if isPhilosopherAllowedToEat], up to the unlocks. *)
Definition meal (philosopher : Philosopher) (r : round) : list event :=
  [ ELock (leftChopStick philosopher);
    ELock (rightChopStick philosopher);
    EPrintf "starting  eating %d (%d)\n"
            [ArgInt (id philosopher); ArgInt (countEating philosopher)];
    ESleep (eat_rand r + 50);
    EPrintf "finishing eating %d (%d)\n"
            [ArgInt (id philosopher); ArgInt (countEating philosopher)];
    EUnlock (rightChopStick philosopher);
    EUnlock (leftChopStick philosopher) ].

Definition ask (philosopher : Philosopher) (r : round) : list event :=
  [ ESleep (think_rand r);
    ESendRequest (mkRequest wantToEat philosopher);
    ERecvFeedback (feedbackChannel philosopher) (reply r) ].

(** The result of running the loop on the rounds it is given: the events,
    the philosopher at the end, and whether [eat] has returned ([true]) or
    is at the head of the loop with no round left ([false]). *)
Fixpoint eat_loop (philosopher : Philosopher) (rounds : list round)
  : list event * Philosopher * bool :=
  if countEating philosopher <? 3 then
    match rounds with
    | [] => ([], philosopher, false)
    | r :: rest =>
      if reply r then
        let philosopher' :=
          set_countEating philosopher (int_wrap (countEating philosopher + 1)) in
        let '(tr, final, returned) := eat_loop philosopher' rest in
        (ask philosopher r ++ meal philosopher r
           ++ [EWgDone; ESendRequest (mkRequest finishedEating philosopher')] ++ tr,
         final, returned)
      else
        let '(tr, final, returned) := eat_loop philosopher rest in
        (ask philosopher r ++ tr, final, returned)
    end
  else
    ([ECloseFeedback (feedbackChannel philosopher)], philosopher, true).

Definition eat (philosopher : Philosopher) (rounds : list round)
  : list event * Philosopher * bool :=
  eat_loop (set_countEating philosopher 0) rounds.

Definition eat_trace (philosopher : Philosopher) (rounds : list round) : list event :=
  (eat philosopher rounds).1.1.
Definition eat_final (philosopher : Philosopher) (rounds : list round) : Philosopher :=
  (eat philosopher rounds).1.2.
Definition eat_returned (philosopher : Philosopher) (rounds : list round) : bool :=
  (eat philosopher rounds).2.

(** The values of [countEating] carried by the requests of a trace, in order. *)
Definition request_counts (tr : list event) : list Z :=
  flat_map (fun e => match e with
                     | ESendRequest r => [countEating (philosopher r)]
                     | _ => []
                     end) tr.

Definition is_done (e : event) : bool :=
  match e with EWgDone => true | _ => false end.

(** How many times [wg.Done()] is called in a trace. *)
Definition count_done (tr : list event) : nat :=
  length (List.filter is_done tr).

(** ** The coordinator *)

(** The five mutexes allocated by the first loop of [main], by address. *)
Definition chopSticks : list ChopStickPtr := seq 0 (Z.to_nat maxChopSticks).

(** The second loop of [main]; the i-th [make(chan bool)] is channel [i]. *)
Definition new_philosopher (philosopher : Z) : Philosopher :=
  let leftChopStickID := philosopher in
  let rightChopStickID := Z.rem (philosopher + 1) maxPhilosophers in
  {| id := philosopher;
     countEating := 0;
     leftChopStick := nth (Z.to_nat leftChopStickID) chopSticks 0%nat;
     rightChopStick := nth (Z.to_nat rightChopStickID) chopSticks 0%nat;
     feedbackChannel := Z.to_nat philosopher |}.

Definition philosophers : list Philosopher :=
  map (fun i => new_philosopher (Z.of_nat i)) (seq 0 (Z.to_nat maxPhilosophers)).

(** What [main] does once the table is laid. *)
Definition main_trace : list event :=
  [ EWgAdd (maxPhilosophers * maxTimeToEat); EGo THost ]
  ++ map (fun i => EGo (TPhilosopher i)) (seq 0 (length philosophers))
  ++ [ EWgWait; ECloseRequests;
       EPrintln "All philosophers have finished eating, good bye" ].

(** ** The wait group and executions of the whole program *)

(** [sync.WaitGroup]: [Add] adds to the counter and panics if it becomes
    negative, [Done] is [Add(-1)], [Wait] returns only when the counter is
    zero.  [wg_run c l] is the counter after the events [l] have all
    happened, starting from [c]; it is [None] when they cannot. *)
Fixpoint wg_run (counter : Z) (l : list event) : option Z :=
  match l with
  | [] => Some counter
  | EWgAdd delta :: l' =>
    if counter + delta <? 0 then None else wg_run (counter + delta) l'
  | EWgDone :: l' =>
    if counter - 1 <? 0 then None else wg_run (counter - 1) l'
  | EWgWait :: l' =>
    if counter =? 0 then wg_run counter l' else None
  | _ :: l' => wg_run counter l'
  end.

Definition thread_eqb (t u : thread) : bool :=
  match t, u with
  | TMain, TMain => true
  | THost, THost => true
  | TPhilosopher n, TPhilosopher m => Nat.eqb n m
  | _, _ => false
  end.

(** The events of one goroutine in an interleaving. *)
Fixpoint events_of (t : thread) (g : list (thread * event)) : list event :=
  match g with
  | [] => []
  | (u, e) :: g' => if thread_eqb t u then e :: events_of t g' else events_of t g'
  end.

(** What a goroutine has done so far is the beginning of what its code does. *)
Definition thread_ok (t : thread) (tr : list event) : Prop :=
  match t with
  | TMain => tr `prefix_of` main_trace
  | THost => ∃ requests final out, Host requests = Some (final, out) ∧ tr `prefix_of` out
  | TPhilosopher n =>
    match philosophers !! n with
    | Some p => ∃ rounds, tr `prefix_of` eat_trace p rounds
    | None => tr = []
    end
  end.

Definition execution (g : list (thread * event)) : Prop :=
  (∀ t, thread_ok t (events_of t g)) ∧ is_Some (wg_run 0 g.*2).

(** ** Ring adjacency, as the specification states it *)

(** Two identities are adjacent when [|a - b| mod N] is [1] or [N - 1]. *)
Definition ring_adjacent (a b : Z) : bool :=
  let d := Z.abs (a - b) mod maxPhilosophers in
  (d =? 1) || (d =? maxPhilosophers - 1).

Definition want (p : Philosopher) : Request := mkRequest wantToEat p.
Definition finished (p : Philosopher) : Request := mkRequest finishedEating p.

(** ** Counting and an example run *)

(** The number of rounds in which the host's reply is [true]. *)
Definition admitted (rounds : list round) : nat :=
  length (List.filter reply rounds).

(** The sum of the arguments of the calls of [wg.Add] in a trace. *)
Fixpoint wg_added (l : list event) : Z :=
  match l with
  | [] => 0
  | EWgAdd delta :: l' => delta + wg_added l'
  | _ :: l' => wg_added l'
  end.

Definition is_add (e : event) : bool :=
  match e with EWgAdd _ => true | _ => false end.

Definition is_close (e : event) : bool :=
  match e with ECloseFeedback _ => true | _ => false end.

Definition tag (t : thread) (l : list event) : list (thread * event) :=
  map (pair t) l.

(** One meal of philosopher [n], served by the host with nobody else at the
    table: request, acceptance, meal, completion. *)
Definition served_meal (n : nat) (p : Philosopher) (r : round)
  : list (thread * event) :=
  let p' := set_countEating p (int_wrap (countEating p + 1)) in
  tag (TPhilosopher n) [ESleep (think_rand r); ESendRequest (want p)]
  ++ tag THost (ERecvRequest (want p) :: AcceptRequestToEat p)
  ++ tag (TPhilosopher n)
         ([ERecvFeedback (feedbackChannel p) true] ++ meal p r
            ++ [EWgDone; ESendRequest (finished p')])
  ++ tag THost [ERecvRequest (finished p')].

(** Philosopher [n] eats three times in a row and returns. *)
Definition served_philosopher (n : nat) (p : Philosopher) : list (thread * event) :=
  let r := mkRound 100 true 200 in
  let p0 := set_countEating p 0 in
  let p1 := set_countEating p 1 in
  let p2 := set_countEating p 2 in
  served_meal n p0 r ++ served_meal n p1 r ++ served_meal n p2 r
  ++ tag (TPhilosopher n) [ECloseFeedback (feedbackChannel p)].

(** A complete run: [main] starts everybody, the philosophers eat one after
    the other, [main] wakes up and closes the request channel. *)
Definition example_run_before_close : list (thread * event) :=
  tag TMain (take 7 main_trace)
  ++ flat_map (fun np => served_philosopher np.1 np.2)
              (zip (seq 0 (length philosophers)) philosophers)
  ++ tag TMain [EWgWait].

Definition example_run : list (thread * event) :=
  example_run_before_close
  ++ (TMain, ECloseRequests)
  :: tag TMain [EPrintln "All philosophers have finished eating, good bye"].

Definition example_rounds : list round :=
  [mkRound 100 true 200; mkRound 100 true 200; mkRound 100 true 200].

Definition example_requests : list Request :=
  flat_map (fun p => [ want (set_countEating p 0); finished (set_countEating p 1);
                       want (set_countEating p 1); finished (set_countEating p 2);
                       want (set_countEating p 2); finished (set_countEating p 3) ])
           philosophers.

(** ** Observations on traces *)

(** The reasons of the rejections printed in a list of events: only
    [RejectRequestToEat] prints an integer followed by a string. *)
Definition reject_reasons (out : list event) : list string :=
  flat_map (fun e => match e with
                     | EPrintf _ [ArgInt _; ArgStr reason] => [reason]
                     | _ => []
                     end) out.

Definition is_want (r : Request) : bool := String.eqb (command r) wantToEat.
Definition is_finished (r : Request) : bool := String.eqb (command r) finishedEating.

(** The kinds of events the code of [Host] can perform. *)
Definition host_event (e : event) : bool :=
  match e with
  | ERecvRequest _ | EPrintf _ _ | ESendFeedback _ _ => true
  | _ => false
  end.

(** The zero value of [Request], which a receive on the closed request
    channel yields. *)
Definition zero_Request : Request :=
  mkRequest "" (mkPhilosopher 0 0 0%nat 0%nat 0%nat).

Definition count_events (f : event → bool) (tr : list event) : nat :=
  length (List.filter f tr).

Definition is_want_send (e : event) : bool :=
  match e with ESendRequest r => is_want r | _ => false end.
Definition is_finished_send (e : event) : bool :=
  match e with ESendRequest r => is_finished r | _ => false end.
Definition is_recv (e : event) : bool :=
  match e with ERecvFeedback _ _ => true | _ => false end.
Definition is_recv_true (e : event) : bool :=
  match e with ERecvFeedback _ true => true | _ => false end.

(** What the code of [eat], run by [p], may do: send requests that carry
    [p] (with whatever count) under one of the two commands, receive on and
    close [p]'s feedback channel, lock and unlock [p]'s two chopsticks,
    print, sleep and call [wg.Done()]. *)
Definition own_event (p : Philosopher) (e : event) : bool :=
  match e with
  | ESendRequest r =>
    (is_want r || is_finished r)
    && (id (philosopher r) =? id p)
    && Nat.eqb (leftChopStick (philosopher r)) (leftChopStick p)
    && Nat.eqb (rightChopStick (philosopher r)) (rightChopStick p)
    && Nat.eqb (feedbackChannel (philosopher r)) (feedbackChannel p)
  | ERecvFeedback c _ | ECloseFeedback c => Nat.eqb c (feedbackChannel p)
  | ELock m | EUnlock m =>
    Nat.eqb m (leftChopStick p) || Nat.eqb m (rightChopStick p)
  | EPrintf _ _ | ESleep _ | EWgDone => true
  | _ => false
  end.

(** The mutexes a goroutine holds after a list of its events, starting
    from those in [held]; [None] when it locks a mutex it already holds
    (a [sync.Mutex] is not reentrant: the call never returns) or unlocks one
    it does not hold. *)
Fixpoint held_after (held : list ChopStickPtr) (tr : list event)
  : option (list ChopStickPtr) :=
  match tr with
  | [] => Some held
  | ELock m :: tr' =>
    if existsb (Nat.eqb m) held then None else held_after (m :: held) tr'
  | EUnlock m :: tr' =>
    if existsb (Nat.eqb m) held
    then held_after (List.filter (fun x => negb (Nat.eqb m x)) held) tr'
    else None
  | _ :: tr' => held_after held tr'
  end.

(** The durations of the sleeps of a trace, in milliseconds. *)
Definition sleeps (tr : list event) : list Z :=
  flat_map (fun e => match e with ESleep ms => [ms] | _ => [] end) tr.

(** Two philosophers have a chopstick in common. *)
Definition shares_chopstick (p q : Philosopher) : bool :=
  Nat.eqb (leftChopStick p) (leftChopStick q)
  || Nat.eqb (leftChopStick p) (rightChopStick q)
  || Nat.eqb (rightChopStick p) (leftChopStick q)
  || Nat.eqb (rightChopStick p) (rightChopStick q).

(** Requests of philosophers served one at a time: each asks, eats and
    reports, with whatever count its report carries. *)
Definition one_at_a_time (l : list (Philosopher * Z)) : list Request :=
  flat_map (fun pn => [want pn.1; finished (set_countEating pn.1 pn.2)]) l.

(** Every key of the map is the identity of a philosopher of the table. *)
Definition keys_at_table (s : gmap Z Philosopher) : Prop :=
  ∀ k, is_Some (s !! k) → 0 <= k < maxPhilosophers.

(** The durations of the sleeps that come right after a print, which in
    [eat] are the sleeps of the meals. *)
Fixpoint meal_sleeps (tr : list event) : list Z :=
  match tr with
  | [] => []
  | EPrintf _ _ :: tr' =>
    match tr' with
    | ESleep ms :: tr'' => ms :: meal_sleeps tr''
    | _ => meal_sleeps tr'
    end
  | _ :: tr' => meal_sleeps tr'
  end.

(** The chopsticks a philosopher may be holding at any point of [eat]:
    none, the left one, or both. *)
Definition holds_own (p : Philosopher) (held : list ChopStickPtr) : Prop :=
  held = [] ∨ held = [leftChopStick p]
  ∨ held = [rightChopStick p; leftChopStick p].

(** ** The philosophers the host has let eat *)




(** * Properties of the host *)

Section Host_facts.

Implicit Types (s : gmap Z Philosopher) (p q : Philosopher) (r : Request).

Lemma map_size_1_inv s :
  size s = 1%nat → ∃ k v, s = {[k := v]} ∧ map_to_list s = [(k, v)].
Proof.
  intros Hsz. rewrite <- length_map_to_list in Hsz.
  destruct (map_to_list s) as [|[k v] [|? ?]] eqn:E; simplify_eq/=.
  exists k, v. split; [|done].
  rewrite <- (list_to_map_to_list s), E. done.
Qed.

Lemma Host_step_want s p :
  Host_step s (want p) =
  if Nat.eqb (size s) 0 then Some (<[id p := p]> s, AcceptRequestToEat p)
  else if Nat.eqb (size s) 1 then
    match (map_to_list s).*1 !! 0%nat with
    | None => None
    | Some cur =>
      if (cur =? 0) && (id p =? maxPhilosophers) then
        Some (s, RejectRequestToEat p "Neighborhood 0-")
      else if (cur =? maxPhilosophers) && (id p =? 0) then
        Some (s, RejectRequestToEat p "Neiborhood -0")
      else if abs_float64_is_one (int_sub (id p) cur) then
        Some (s, RejectRequestToEat p "Neighborhood")
      else if id p =? cur then
        Some (s, RejectRequestToEat p "Philosopher alread eating")
      else Some (s, AcceptRequestToEat p)
    end
  else Some (s, RejectRequestToEat p "All allowed philoshopers are already eating").
Proof. reflexivity. Qed.

Lemma Host_step_finished s p :
  Host_step s (finished p) = Some (delete (id p) s, []).
Proof. reflexivity. Qed.

Lemma Host_step_other s r :
  command r ≠ wantToEat → command r ≠ finishedEating → Host_step s r = Some (s, []).
Proof.
  intros H1 H2. unfold Host_step.
  destruct (String.eqb_spec (command r) wantToEat); [done|].
  destruct (String.eqb_spec (command r) finishedEating); done.
Qed.

Lemma Host_step_want_empty p :
  Host_step ∅ (want p) = Some ({[id p := p]}, AcceptRequestToEat p).
Proof. rewrite Host_step_want, map_size_empty. reflexivity. Qed.

(** With one philosopher in the map, the map is left as it is, whatever the
    decision. *)
Lemma Host_step_want_single k v p :
  ∃ out, Host_step {[k := v]} (want p) = Some ({[k := v]}, out)
         ∧ (out = AcceptRequestToEat p ∨ ∃ reason, out = RejectRequestToEat p reason).
Proof.
  rewrite Host_step_want, map_size_singleton, map_to_list_singleton. simpl.
  repeat case_match; eauto.
Qed.

Lemma Host_step_want_full s p :
  (2 ≤ size s)%nat →
  Host_step s (want p)
  = Some (s, RejectRequestToEat p "All allowed philoshopers are already eating").
Proof.
  intros Hsz. rewrite Host_step_want.
  destruct (Nat.eqb_spec (size s) 0); [lia|].
  destruct (Nat.eqb_spec (size s) 1); [lia|]. done.
Qed.

(** The shape of every iteration of the loop. *)
Lemma Host_step_cases s r :
  (command r = wantToEat ∧ s = ∅
   ∧ Host_step s r = Some ({[id (philosopher r) := philosopher r]},
                           AcceptRequestToEat (philosopher r)))
  ∨ (command r = wantToEat ∧ s ≠ ∅
     ∧ ∃ out, Host_step s r = Some (s, out)
              ∧ (out = AcceptRequestToEat (philosopher r)
                 ∨ ∃ reason, out = RejectRequestToEat (philosopher r) reason))
  ∨ (command r = finishedEating
     ∧ Host_step s r = Some (delete (id (philosopher r)) s, []))
  ∨ (command r ≠ wantToEat ∧ command r ≠ finishedEating
     ∧ Host_step s r = Some (s, [])).
Proof.
  destruct r as [c p]; simpl.
  destruct (String.eqb_spec c wantToEat) as [->|Hw].
  - change (mkRequest wantToEat p) with (want p).
    destruct (decide (size s = 0%nat)) as [H0|H0].
    + apply map_size_empty_inv in H0 as ->. left.
      split_and!; [done..|]. apply Host_step_want_empty.
    + right; left. split_and!; [done| |].
      { intros ->. by rewrite map_size_empty in H0. }
      destruct (decide (size s = 1%nat)) as [H1|H1].
      * apply map_size_1_inv in H1 as (k & v & -> & _).
        apply Host_step_want_single.
      * eexists. split; [apply Host_step_want_full; lia|eauto].
  - destruct (String.eqb_spec c finishedEating) as [->|Hf].
    + right; right; left. split; [done|]. apply Host_step_finished.
    + right; right; right. split_and!; [done..|].
      by apply Host_step_other.
Qed.

Lemma Host_step_total s r : is_Some (Host_step s r).
Proof.
  destruct (Host_step_cases s r) as [(_&_&->)|[(_&_&?&->&_)|[(_&->)|(_&_&->)]]]; eauto.
Qed.

Lemma Host_step_size s r s' out :
  Host_step s r = Some (s', out) → (size s ≤ 1)%nat → (size s' ≤ 1)%nat.
Proof.
  intros Hstep Hsz.
  destruct (Host_step_cases s r) as [(_&_&E)|[(_&_&?&E&_)|[(_&E)|(_&_&E)]]];
    rewrite E in Hstep; simplify_eq; try done.
  - by rewrite map_size_singleton.
  - destruct (s !! id (philosopher r)) eqn:E'.
    + rewrite map_size_delete_Some by eauto. lia.
    + by rewrite map_size_delete_None.
Qed.

Lemma Host_loop_total s requests : is_Some (Host_loop s requests).
Proof.
  revert s. induction requests as [|r rest IH]; intros s; simpl; [eauto|].
  destruct (Host_step_total s r) as [[s' out] ->].
  destruct (IH s') as [[final out'] ->]. eauto.
Qed.

Lemma Host_loop_size s requests final out :
  Host_loop s requests = Some (final, out) → (size s ≤ 1)%nat → (size final ≤ 1)%nat.
Proof.
  revert s out. induction requests as [|r rest IH]; intros s out; simpl.
  - intros; simplify_eq. done.
  - destruct (Host_step s r) as [[s' o]|] eqn:E; [|done].
    destruct (Host_loop s' rest) as [[f o']|] eqn:E'; [|done].
    intros; simplify_eq. eapply IH; [done|]. by eapply Host_step_size.
Qed.

Lemma Host_size requests final out :
  Host requests = Some (final, out) → (size final ≤ 1)%nat.
Proof.
  intros H. eapply Host_loop_size; [exact H|]. rewrite map_size_empty. lia.
Qed.

Lemma size_le_1_lookup s a b :
  (size s ≤ 1)%nat → is_Some (s !! a) → is_Some (s !! b) → a = b.
Proof.
  intros Hsz [x Ha] [y Hb].
  destruct (decide (size s = 0%nat)) as [H0|H0].
  { apply map_size_empty_inv in H0 as ->. by rewrite lookup_empty in Ha. }
  destruct (map_size_1_inv s) as (k & v & -> & _); [lia|].
  apply lookup_singleton_Some in Ha as [<- _].
  apply lookup_singleton_Some in Hb as [<- _]. done.
Qed.

End Host_facts.

(** * The host's decisions *)

Section Host_claims.

Implicit Types (s : gmap Z Philosopher) (p q : Philosopher) (r : Request).

(** What the single-member branch decides for identities of the table: the
    request is rejected exactly when the two identities are equal or are
    neighbours other than the pair 0 and 4. *)
Lemma Host_single_member_decision Y q p :
  0 <= Y < maxPhilosophers → 0 <= id p < maxPhilosophers →
  ∃ out, Host_step {[Y := q]} (want p) = Some ({[Y := q]}, out)
         ∧ feedback_sends out
           = [(feedbackChannel p,
               negb ((ring_adjacent (id p) Y
                      && negb (Z.abs (id p - Y) =? maxPhilosophers - 1))
                     || (id p =? Y)))].
Proof.
  unfold maxPhilosophers. destruct p as [X c l r ch]. simpl. intros HY HX.
  assert (Y = 0 ∨ Y = 1 ∨ Y = 2 ∨ Y = 3 ∨ Y = 4) as HY' by lia.
  assert (X = 0 ∨ X = 1 ∨ X = 2 ∨ X = 3 ∨ X = 4) as HX' by lia.
  rewrite Host_step_want, map_size_singleton, map_to_list_singleton.
  destruct_or!; subst; eexists; split; reflexivity.
Qed.

(** C1 (the code departs from the claim): with philosopher 0 alone in the
    map, the request of philosopher 4, its neighbour around the table, is
    accepted, and likewise the request of 0 when 4 is alone in the map.  The
    two wrap-around tests of the host compare with [maxPhilosophers], which
    no identity equals. *)
Theorem C1_wraparound_neighbour_admitted :
  ring_adjacent 4 0 = true
  ∧ Host_step {[0 := new_philosopher 0]} (want (new_philosopher 4))
    = Some ({[0 := new_philosopher 0]}, AcceptRequestToEat (new_philosopher 4))
  ∧ feedback_sends (AcceptRequestToEat (new_philosopher 4)) = [(4%nat, true)]
  ∧ Host_step {[4 := new_philosopher 4]} (want (new_philosopher 0))
    = Some ({[4 := new_philosopher 4]}, AcceptRequestToEat (new_philosopher 0)).
Proof.
  split_and!; [reflexivity| |reflexivity|].
  - rewrite Host_step_want, map_size_singleton, map_to_list_singleton. reflexivity.
  - rewrite Host_step_want, map_size_singleton, map_to_list_singleton. reflexivity.
Qed.

(** C2 (the code departs from the claim): after the requests of 0 and 2 have
    both been accepted the map holds philosopher 0 only, and the request of
    philosopher 3 that follows is accepted, not rejected for capacity: the
    second acceptance does not record the philosopher. *)
Theorem C2_third_request_admitted :
  Host [want (new_philosopher 0); want (new_philosopher 2)]
  = Some ({[0 := new_philosopher 0]},
          [ERecvRequest (want (new_philosopher 0))]
            ++ AcceptRequestToEat (new_philosopher 0)
            ++ [ERecvRequest (want (new_philosopher 2))]
            ++ AcceptRequestToEat (new_philosopher 2))
  ∧ size ({[0 := new_philosopher 0]} : gmap Z Philosopher) = 1%nat
  ∧ Host_step {[0 := new_philosopher 0]} (want (new_philosopher 3))
    = Some ({[0 := new_philosopher 0]}, AcceptRequestToEat (new_philosopher 3)).
Proof.
  split_and!.
  - unfold Host. simpl Host_loop. rewrite Host_step_want_empty.
    change (id (new_philosopher 0)) with 0.
    rewrite Host_step_want, map_size_singleton, map_to_list_singleton. reflexivity.
  - apply map_size_singleton.
  - rewrite Host_step_want, map_size_singleton, map_to_list_singleton. reflexivity.
Qed.

(** C3: whatever requests the host has processed, its map holds at most one
    philosopher; a request to eat processed when the map holds one
    philosopher leaves the map as it is, whatever the reply; and a key
    enters the map only through a request to eat processed on the empty
    map. *)
Theorem C3_at_most_one_member :
  (∀ requests, ∃ final out,
      Host requests = Some (final, out) ∧ (size final ≤ 1)%nat)
  ∧ (∀ s p, size s = 1%nat → ∃ out, Host_step s (want p) = Some (s, out))
  ∧ (Host_step {[0 := new_philosopher 0]} (want (new_philosopher 2))
     = Some ({[0 := new_philosopher 0]}, AcceptRequestToEat (new_philosopher 2)))
  ∧ (∀ s r s' out k,
        Host_step s r = Some (s', out) → s !! k = None → is_Some (s' !! k) →
        s = ∅ ∧ command r = wantToEat ∧ k = id (philosopher r)).
Proof.
  split_and!.
  - intros requests.
    destruct (Host_loop_total ∅ requests) as [[final out] E].
    exists final, out. split; [exact E|]. by eapply Host_size.
  - intros s p (k & v & -> & _)%map_size_1_inv.
    destruct (Host_step_want_single k v p) as (out & E & _). eauto.
  - rewrite Host_step_want, map_size_singleton, map_to_list_singleton. reflexivity.
  - intros s r s' out k Hstep Hk [x Hk'].
    destruct (Host_step_cases s r) as [(Hc&->&E)|[(_&_&?&E&_)|[(_&E)|(_&_&E)]]];
      rewrite E in Hstep; simplify_eq.
    + apply lookup_singleton_Some in Hk' as [<- _]. done.
    + apply lookup_delete_Some in Hk' as [_ ?]. congruence.
Qed.

Lemma C3_at_most_one_member_witness :
  ∃ out, Host_step {[0 := new_philosopher 0]} (want (new_philosopher 2))
         = Some ({[0 := new_philosopher 0]}, out).
Proof.
  destruct C3_at_most_one_member as (_ & Hkeep & _).
  apply (Hkeep {[0 := new_philosopher 0]} (new_philosopher 2)).
  vm_compute. reflexivity.
Defined.


(** C5: whatever requests the host has processed, starting from the empty
    map, its map holds at most two philosophers. *)
Theorem C5_at_most_two_members requests :
  ∃ final out, Host requests = Some (final, out) ∧ (size final ≤ 2)%nat.
Proof.
  destruct (Host_loop_total ∅ requests) as [[final out] E].
  exists final, out. split; [exact E|].
  pose proof (Host_size _ _ _ E). lia.
Qed.

(** C6: processing a request to eat always succeeds and sends exactly one
    boolean on the feedback channel of the philosopher who asks: [true]
    through [AcceptRequestToEat] or [false] through [RejectRequestToEat]. *)
Theorem C6_exactly_one_reply s p :
  ∃ s' out b,
    Host_step s (want p) = Some (s', out)
    ∧ ((out = AcceptRequestToEat p ∧ b = true)
       ∨ (∃ reason, out = RejectRequestToEat p reason) ∧ b = false)
    ∧ feedback_sends out = [(feedbackChannel p, b)].
Proof.
  destruct (Host_step_cases s (want p))
    as [(_&_&E)|[(_&_&out&E&[->|[reason ->]])|[(Hc&_)|(Hc&_)]]].
  - exists {[id p := p]}, (AcceptRequestToEat p), true. eauto.
  - exists s, (AcceptRequestToEat p), true. eauto.
  - exists s, (RejectRequestToEat p reason), false. eauto 6.
  - discriminate Hc.
  - by destruct Hc.
Qed.

(** C7: processing finished-eating from a philosopher removes its identity
    from the map, touches no other key and produces no event, so no reply;
    when the identity is not in the map the map is unchanged, and processing
    the same message again changes nothing more. *)
Theorem C7_finished_removes s p :
  ∃ s',
    Host_step s (finished p) = Some (s', [])
    ∧ s' !! id p = None
    ∧ (∀ k, k ≠ id p → s' !! k = s !! k)
    ∧ (s !! id p = None → s' = s)
    ∧ Host_step s' (finished p) = Some (s', []).
Proof.
  exists (delete (id p) s). split_and!.
  - apply Host_step_finished.
  - apply lookup_delete_eq.
  - intros k Hk. by apply lookup_delete_ne.
  - apply delete_id.
  - rewrite Host_step_finished. by rewrite delete_delete_eq.
Qed.

Lemma C7_finished_removes_witness :
  ∃ s', Host_step {[0 := new_philosopher 0]} (finished (new_philosopher 2))
        = Some (s', [])
        ∧ s' = {[0 := new_philosopher 0]}.
Proof.
  destruct (C7_finished_removes {[0 := new_philosopher 0]} (new_philosopher 2))
    as (s' & E & _ & _ & Hid & _).
  exists s'. split; [exact E|]. apply Hid. vm_compute. reflexivity.
Defined.

(** C10: a request to eat keeps every entry of the map and changes no key
    other than the requester's; finished-eating adds no entry and changes no
    key other than the requester's; any other command leaves the map as it
    is and produces no event. *)
Theorem C10_frame s r s' out :
  Host_step s r = Some (s', out) →
  (command r = wantToEat →
     s ⊆ s' ∧ ∀ k, k ≠ id (philosopher r) → s' !! k = s !! k)
  ∧ (command r = finishedEating →
     s' ⊆ s ∧ (∀ k, k ≠ id (philosopher r) → s' !! k = s !! k)
     ∧ feedback_sends out = [])
  ∧ (command r ≠ wantToEat → command r ≠ finishedEating → s' = s ∧ out = []).
Proof.
  intros Hstep.
  destruct (Host_step_cases s r) as [(Hc&->&E)|[(Hc&_&?&E&_)|[(Hc&E)|(Hw&Hf&E)]]];
    rewrite E in Hstep; simplify_eq.
  - split_and!; [|by rewrite Hc|done].
    intros _. split; [apply map_empty_subseteq|].
    intros k Hk. by rewrite lookup_singleton_ne.
  - split_and!; [done|by rewrite Hc|done].
  - split_and!; [by rewrite Hc| |done].
    intros _. split_and!; [apply delete_subseteq| |done].
    intros k Hk. by apply lookup_delete_ne.
  - split_and!; done.
Qed.

Lemma C10_frame_witness :
  ({[0 := new_philosopher 0]} : gmap Z Philosopher) ⊆ {[0 := new_philosopher 0]}
  ∧ ∀ k, k ≠ 2 →
         ({[0 := new_philosopher 0]} : gmap Z Philosopher) !! k
         = ({[0 := new_philosopher 0]} : gmap Z Philosopher) !! k.
Proof.
  apply (C10_frame {[0 := new_philosopher 0]} (want (new_philosopher 2))
                   {[0 := new_philosopher 0]}
                   (AcceptRequestToEat (new_philosopher 2))).
  - vm_compute. reflexivity.
  - reflexivity.
Defined.

End Host_claims.

(** * The philosopher's loop *)

Section Philosopher_facts.

Implicit Types (p q : Philosopher) (rounds more : list round) (tr : list event).

Lemma int_wrap_small z : - 2 ^ 63 <= z < 2 ^ 63 → int_wrap z = z.
Proof. intros Hz. unfold int_wrap. rewrite Z.mod_small; lia. Qed.

Lemma set_countEating_same q : set_countEating q (countEating q) = q.
Proof. by destruct q. Qed.

Lemma admitted_cons r rounds :
  admitted (r :: rounds) = if reply r then S (admitted rounds) else admitted rounds.
Proof. unfold admitted. simpl. by destruct (reply r). Qed.

Lemma admitted_app rounds more :
  admitted (rounds ++ more) = (admitted rounds + admitted more)%nat.
Proof. unfold admitted. by rewrite List.filter_app, length_app. Qed.

Lemma eat_loop_nil q :
  eat_loop q [] = if countEating q <? 3 then ([], q, false)
                  else ([ECloseFeedback (feedbackChannel q)], q, true).
Proof. reflexivity. Qed.

Lemma eat_loop_done q rounds :
  3 <= countEating q →
  eat_loop q rounds = ([ECloseFeedback (feedbackChannel q)], q, true).
Proof.
  intros Hc. destruct rounds; simpl; destruct (Z.ltb_spec (countEating q) 3); done || lia.
Qed.

Lemma eat_loop_admitted q r rounds :
  countEating q < 3 → reply r = true →
  eat_loop q (r :: rounds)
  = let q' := set_countEating q (int_wrap (countEating q + 1)) in
    (ask q r ++ meal q r ++ [EWgDone; ESendRequest (finished q')]
       ++ (eat_loop q' rounds).1.1,
     (eat_loop q' rounds).1.2, (eat_loop q' rounds).2).
Proof.
  intros Hc Hr. simpl. destruct (Z.ltb_spec (countEating q) 3); [|lia].
  rewrite Hr. by destruct (eat_loop _ rounds) as [[? ?] ?].
Qed.

Lemma eat_loop_rejected q r rounds :
  countEating q < 3 → reply r = false →
  eat_loop q (r :: rounds)
  = (ask q r ++ (eat_loop q rounds).1.1, (eat_loop q rounds).1.2, (eat_loop q rounds).2).
Proof.
  intros Hc Hr. simpl. destruct (Z.ltb_spec (countEating q) 3); [|lia].
  rewrite Hr. by destruct (eat_loop _ rounds) as [[? ?] ?].
Qed.

(** The loop, from a count between 0 and 3. *)
Lemma eat_loop_spec rounds : ∀ q,
  0 <= countEating q <= 3 →
  ∃ tr c' returned,
    eat_loop q rounds = (tr, set_countEating q c', returned)
    ∧ c' = Z.min 3 (countEating q + Z.of_nat (admitted rounds))
    ∧ (returned = true ↔ 3 <= countEating q + Z.of_nat (admitted rounds))
    ∧ Forall (λ c, countEating q <= c <= c') (request_counts tr)
    ∧ StronglySorted Z.le (request_counts tr)
    ∧ Z.of_nat (count_done tr) = c' - countEating q.
Proof.
  induction rounds as [|r rest IH]; intros q Hq.
  - rewrite eat_loop_nil. change (admitted []) with 0%nat.
    destruct (Z.ltb_spec (countEating q) 3).
    + exists [], (countEating q), false. rewrite set_countEating_same.
      split_and!; [done|lia| |simpl; constructor|simpl; constructor|unfold count_done; simpl; lia].
      split; [done|lia].
    + exists [ECloseFeedback (feedbackChannel q)], (countEating q), true.
      rewrite set_countEating_same.
      split_and!; [done|lia| |simpl; constructor|simpl; constructor|unfold count_done; simpl; lia].
      split; [lia|done].
  - destruct (Z.ltb_spec (countEating q) 3) as [Hlt|Hge].
    + destruct (reply r) eqn:Hr.
      * rewrite eat_loop_admitted, admitted_cons, Hr by done. cbv zeta.
        rewrite int_wrap_small by lia.
        set (q' := set_countEating q (countEating q + 1)).
        destruct (IH q') as (tr & c' & ret & E & Hc' & Hret & Hall & Hsort & Hdone);
          [simpl; lia|].
        rewrite E. simpl fst; simpl snd. simpl in Hc', Hret, Hall, Hdone.
        eexists _, c', ret. split_and!.
        -- reflexivity.
        -- lia.
        -- rewrite Hret. lia.
        -- simpl. constructor; [lia|]. constructor; [simpl; lia|].
           eapply Forall_impl; [exact Hall|]. simpl. lia.
        -- simpl. constructor.
           ++ constructor; [exact Hsort|].
              eapply Forall_impl; [exact Hall|]. simpl. lia.
           ++ constructor; [simpl; lia|].
              eapply Forall_impl; [exact Hall|]. simpl. lia.
        -- unfold count_done in *. simpl. lia.
      * rewrite eat_loop_rejected, admitted_cons, Hr by done.
        destruct (IH q Hq) as (tr & c' & ret & E & Hc' & Hret & Hall & Hsort & Hdone).
        rewrite E. simpl fst; simpl snd.
        eexists _, c', ret. split_and!; [reflexivity|done|done| | |].
        -- simpl. constructor; [lia|done].
        -- simpl. constructor; [done|].
           eapply Forall_impl; [exact Hall|]. simpl. lia.
        -- unfold count_done in *. simpl. lia.
    + rewrite eat_loop_done by done.
      exists [ECloseFeedback (feedbackChannel q)], (countEating q), true.
      rewrite set_countEating_same.
      split_and!; [done|lia| |simpl; constructor|simpl; constructor|unfold count_done; simpl; lia].
      split; [lia|done].
Qed.

(** Once [eat] has returned, further rounds change nothing. *)
Lemma eat_loop_returned_stable rounds : ∀ q more,
  (eat_loop q rounds).2 = true → eat_loop q (rounds ++ more) = eat_loop q rounds.
Proof.
  induction rounds as [|r rest IH]; intros q more.
  - rewrite eat_loop_nil. simpl app.
    destruct (Z.ltb_spec (countEating q) 3); [done|].
    intros _. by apply eat_loop_done.
  - destruct (Z.ltb_spec (countEating q) 3) as [Hlt|Hge].
    + simpl app. destruct (reply r) eqn:Hr.
      * rewrite !eat_loop_admitted by done. cbv zeta. simpl.
        intros Hret. by rewrite IH.
      * rewrite !eat_loop_rejected by done. simpl.
        intros Hret. by rewrite IH.
    + intros _. by rewrite !eat_loop_done.
Qed.

(** The channel is closed last, and only when [eat] returns. *)
Lemma eat_loop_close rounds : ∀ q,
  ∃ tr0,
    forallb (λ e, negb (is_close e)) tr0 = true
    ∧ (eat_loop q rounds).1.1
      = tr0 ++ (if (eat_loop q rounds).2 then [ECloseFeedback (feedbackChannel q)] else []).
Proof.
  induction rounds as [|r rest IH]; intros q.
  - rewrite eat_loop_nil. destruct (Z.ltb_spec (countEating q) 3); by exists [].
  - destruct (Z.ltb_spec (countEating q) 3) as [Hlt|Hge].
    + destruct (reply r) eqn:Hr.
      * rewrite eat_loop_admitted by done. cbv zeta.
        destruct (IH (set_countEating q (int_wrap (countEating q + 1))))
          as (tr0 & Hno & E).
        simpl fst; simpl snd. rewrite E.
        exists (ask q r ++ meal q r
                  ++ [EWgDone;
                      ESendRequest
                        (finished (set_countEating q (int_wrap (countEating q + 1))))]
                  ++ tr0).
        split; [simpl; exact Hno|]. simpl. done.
      * rewrite eat_loop_rejected by done.
        destruct (IH q) as (tr0 & Hno & E).
        simpl fst; simpl snd. rewrite E.
        exists (ask q r ++ tr0). split; [simpl; exact Hno|]. simpl. done.
    + rewrite eat_loop_done by done. by exists [].
Qed.

End Philosopher_facts.

Section Philosopher_claims.

Implicit Types (p q : Philosopher) (rounds more : list round).

Lemma eat_spec p rounds :
  ∃ tr c' returned,
    eat p rounds = (tr, set_countEating p c', returned)
    ∧ c' = Z.min 3 (Z.of_nat (admitted rounds))
    ∧ (returned = true ↔ (3 ≤ admitted rounds)%nat)
    ∧ Forall (λ c, 0 <= c <= 3) (request_counts tr)
    ∧ StronglySorted Z.le (request_counts tr)
    ∧ Z.of_nat (count_done tr) = c'.
Proof.
  destruct (eat_loop_spec rounds (set_countEating p 0))
    as (tr & c' & ret & E & Hc' & Hret & Hall & Hsort & Hdone); [simpl; lia|].
  simpl in Hc', Hret, Hall, Hdone.
  exists tr, c', ret. unfold eat. rewrite E. split_and!; try done.
  - rewrite Hret. lia.
  - eapply Forall_impl; [exact Hall|]. simpl. lia.
  - lia.
Qed.

(** C8: in [eat], [countEating] is 0 before the first round, stays between 0
    and 3, never decreases as rounds go by, grows by exactly one in a round
    whose reply is [true] (and by nothing in any other round), and equals the
    number of calls of [wg.Done]; the requests sent carry non-decreasing
    counts between 0 and 3; [eat] returns exactly when the count is 3, that
    is when three replies were [true]; when it returns, closing the feedback
    channel is its last event, it never closes the channel otherwise, and
    further rounds add no event. *)
Theorem C8_eat_count p rounds :
  countEating (eat_final p []) = 0
  ∧ 0 <= countEating (eat_final p rounds) <= 3
  ∧ countEating (eat_final p rounds) = Z.min 3 (Z.of_nat (admitted rounds))
  ∧ Z.of_nat (count_done (eat_trace p rounds)) = countEating (eat_final p rounds)
  ∧ (∀ more,
        countEating (eat_final p rounds) <= countEating (eat_final p (rounds ++ more)))
  ∧ (∀ r,
        countEating (eat_final p (rounds ++ [r]))
        = countEating (eat_final p rounds)
          + (if reply r && negb (eat_returned p rounds) then 1 else 0))
  ∧ StronglySorted Z.le (request_counts (eat_trace p rounds))
  ∧ Forall (λ c, 0 <= c <= 3) (request_counts (eat_trace p rounds))
  ∧ (eat_returned p rounds = true ↔ countEating (eat_final p rounds) = 3)
  ∧ (eat_returned p rounds = true ↔ (3 ≤ admitted rounds)%nat)
  ∧ (∃ tr0,
        forallb (λ e, negb (is_close e)) tr0 = true
        ∧ eat_trace p rounds
          = tr0 ++ (if eat_returned p rounds
                    then [ECloseFeedback (feedbackChannel p)] else []))
  ∧ (eat_returned p rounds = true → ∀ more, eat p (rounds ++ more) = eat p rounds).
Proof.
  assert (Hcount : ∀ l, countEating (eat_final p l) = Z.min 3 (Z.of_nat (admitted l))).
  { intros l. destruct (eat_spec p l) as (tr & c' & ret & E & Hc' & _).
    unfold eat_final. rewrite E. simpl. done. }
  destruct (eat_spec p rounds) as (tr & c' & ret & E & Hc' & Hret & Hall & Hsort & Hdone).
  assert (Ef : eat_final p rounds = set_countEating p c') by (unfold eat_final; by rewrite E).
  assert (Et : eat_trace p rounds = tr) by (unfold eat_trace; by rewrite E).
  assert (Er : eat_returned p rounds = ret) by (unfold eat_returned; by rewrite E).
  split_and!.
  - reflexivity.
  - rewrite Hcount. lia.
  - rewrite Hcount. lia.
  - apply Hcount.
  - rewrite Et, Ef. simpl. done.
  - intros more. rewrite !Hcount, admitted_app. lia.
  - intros r. rewrite !Hcount, admitted_app, Er.
    unfold admitted at 2. simpl.
    destruct ret.
    + assert (3 ≤ admitted rounds)%nat by (by apply Hret).
      rewrite andb_false_r. lia.
    + assert (¬ (3 ≤ admitted rounds)%nat) by (rewrite <- Hret; done).
      destruct (reply r); simpl; lia.
  - by rewrite Et.
  - by rewrite Et.
  - rewrite Er, Hcount, Hret. lia.
  - by rewrite Er.
  - destruct (eat_loop_close rounds (set_countEating p 0)) as (tr0 & Hno & Hsplit).
    exists tr0. split; [done|]. exact Hsplit.
  - intros Hreturned more. unfold eat. apply eat_loop_returned_stable. exact Hreturned.
Qed.

Lemma C8_eat_count_witness :
  eat (new_philosopher 0) (example_rounds ++ [mkRound 7 true 9])
  = eat (new_philosopher 0) example_rounds.
Proof.
  destruct (C8_eat_count (new_philosopher 0) example_rounds)
    as (_ & _ & _ & _ & _ & _ & _ & _ & _ & _ & _ & Hstable).
  apply (Hstable eq_refl).
Defined.

End Philosopher_claims.

(** * The completion counter *)

Section Counter_facts.

Implicit Types (g h : list (thread * event)) (l tr : list event) (t u : thread).

Lemma count_done_app l1 l2 :
  count_done (l1 ++ l2) = (count_done l1 + count_done l2)%nat.
Proof. unfold count_done. by rewrite List.filter_app, length_app. Qed.

Lemma wg_run_app l1 : ∀ c l2,
  wg_run c (l1 ++ l2) = wg_run c l1 ≫= λ c', wg_run c' l2.
Proof.
  induction l1 as [|e l1 IH]; intros c l2; [done|].
  destruct e; simpl; try apply IH; case_match; done || apply IH.
Qed.

(** The counter is what was added minus the number of calls of [Done], and
    it is never negative. *)
Lemma wg_run_counter l : ∀ c c',
  wg_run c l = Some c' → 0 <= c →
  c' = c + wg_added l - Z.of_nat (count_done l) ∧ 0 <= c'.
Proof.
  induction l as [|e l IH]; intros c c' Hrun Hc.
  - simpl in Hrun. simplify_eq. unfold count_done. simpl. lia.
  - destruct e; simpl in Hrun;
      try (destruct (IH _ _ Hrun Hc) as [-> ?];
           unfold count_done in *; simpl; split; lia).
    + destruct (Z.ltb_spec (c + delta) 0); [done|].
      destruct (IH _ _ Hrun) as [-> ?]; [lia|].
      unfold count_done in *; simpl; split; lia.
    + destruct (Z.ltb_spec (c - 1) 0); [done|].
      destruct (IH _ _ Hrun) as [-> ?]; [lia|].
      unfold count_done in *; simpl; split; lia.
    + destruct (Z.eqb_spec c 0); [|done].
      destruct (IH _ _ Hrun Hc) as [-> ?].
      unfold count_done in *; simpl; split; lia.
Qed.

Lemma thread_eqb_eq t u : thread_eqb t u = true ↔ t = u.
Proof.
  destruct t, u; simpl; try (split; done).
  rewrite Nat.eqb_eq. split; congruence.
Qed.

Lemma events_of_app t g1 g2 :
  events_of t (g1 ++ g2) = events_of t g1 ++ events_of t g2.
Proof.
  induction g1 as [|[u e] g1 IH]; simpl; [done|].
  destruct (thread_eqb t u); simpl; by rewrite IH.
Qed.

Lemma elem_events_of t e g : (t, e) ∈ g → e ∈ events_of t g.
Proof.
  induction g as [|[u x] g IH]; [by intros ?%elem_of_nil|].
  intros [?|Hin]%elem_of_cons; simpl.
  - simplify_eq. assert (thread_eqb u u = true) as -> by by apply thread_eqb_eq.
    left.
  - destruct (thread_eqb t u); [right|]; by apply IH.
Qed.

(** An event of a goroutine splits the interleaving where it happens. *)
Lemma events_of_split t g : ∀ l1 e l2,
  events_of t g = l1 ++ e :: l2 →
  ∃ h1 h2, g = h1 ++ (t, e) :: h2 ∧ events_of t h1 = l1 ∧ events_of t h2 = l2.
Proof.
  induction g as [|[u x] g IH]; intros l1 e l2 H; simpl in H.
  - by destruct l1.
  - destruct (thread_eqb t u) eqn:Eq.
    + apply thread_eqb_eq in Eq as <-.
      assert (Hrefl : thread_eqb t t = true) by by apply thread_eqb_eq.
      destruct l1 as [|y l1]; simpl in H; injection H as -> H.
      * subst l2. by exists [], g.
      * destruct (IH _ _ _ H) as (h1 & h2 & -> & <- & <-).
        exists ((t, y) :: h1), h2. simpl. by rewrite Hrefl.
    + destruct (IH _ _ _ H) as (h1 & h2 & -> & <- & <-).
      exists ((u, x) :: h1), h2. simpl. by rewrite Eq.
Qed.

(** When only [main] calls [Add], what was added is what [main] added. *)
Lemma wg_added_main g :
  (∀ t e, (t, e) ∈ g → t ≠ TMain → is_add e = false) →
  wg_added g.*2 = wg_added (events_of TMain g).
Proof.
  induction g as [|[u x] g IH]; intros Hg; [done|].
  assert (IH' : wg_added g.*2 = wg_added (events_of TMain g)).
  { apply IH. intros t e Hin. apply Hg. by right. }
  rewrite fmap_cons. cbn [snd events_of].
  destruct u; cbn [thread_eqb].
  - destruct x; cbn [wg_added]; by rewrite IH'.
  - assert (is_add x = false) by (by apply (Hg THost); [left|]).
    destruct x; cbn [wg_added]; done.
  - assert (is_add x = false) by (by apply (Hg (TPhilosopher n)); [left|]).
    destruct x; cbn [wg_added]; done.
Qed.

Lemma Host_step_no_add s r s' out :
  Host_step s r = Some (s', out) → Forall (λ e, is_add e = false) out.
Proof.
  intros Hstep.
  destruct (Host_step_cases s r)
    as [(_&_&E)|[(_&_&?&E&[->|[? ->]])|[(_&E)|(_&_&E)]]];
    rewrite E in Hstep; simplify_eq; repeat constructor.
Qed.

Lemma Host_loop_no_add requests : ∀ s final out,
  Host_loop s requests = Some (final, out) → Forall (λ e, is_add e = false) out.
Proof.
  induction requests as [|r rest IH]; intros s final out; simpl.
  - intros; simplify_eq. constructor.
  - destruct (Host_step s r) as [[s' o]|] eqn:E; [|done].
    destruct (Host_loop s' rest) as [[f o']|] eqn:E'; [|done].
    intros; simplify_eq. constructor; [done|].
    apply Forall_app. split; [by eapply Host_step_no_add|by eapply IH].
Qed.

Lemma eat_loop_no_add rounds : ∀ q,
  Forall (λ e, is_add e = false) (eat_loop q rounds).1.1.
Proof.
  induction rounds as [|r rest IH]; intros q.
  - rewrite eat_loop_nil. case_match; repeat constructor.
  - destruct (Z.ltb_spec (countEating q) 3) as [Hlt|Hge].
    + destruct (reply r) eqn:Hr.
      * rewrite eat_loop_admitted by done. cbv zeta. simpl.
        repeat (constructor; [done|]). apply IH.
      * rewrite eat_loop_rejected by done. simpl.
        repeat (constructor; [done|]). apply IH.
    + rewrite eat_loop_done by done. repeat constructor.
Qed.

Lemma Forall_prefix {A} (P : A → Prop) (l1 l2 : list A) :
  l1 `prefix_of` l2 → Forall P l2 → Forall P l1.
Proof. intros [k ->] [? _]%Forall_app. done. Qed.

(** In an execution only [main] calls [Add]. *)
Lemma execution_only_main_adds g :
  (∀ t, thread_ok t (events_of t g)) →
  ∀ t e, (t, e) ∈ g → t ≠ TMain → is_add e = false.
Proof.
  intros Hok t e Hin Ht. apply elem_events_of in Hin.
  specialize (Hok t). destruct t as [| |n]; [done| |]; simpl in Hok.
  - destruct Hok as (requests & final & out & Hhost & Hpre).
    pose proof (Forall_prefix _ _ _ Hpre (Host_loop_no_add _ _ _ _ Hhost)) as Hall.
    rewrite Forall_forall in Hall. by apply Hall.
  - destruct (philosophers !! n) as [p|].
    + destruct Hok as (rounds & Hpre).
      pose proof (Forall_prefix _ _ _ Hpre (eat_loop_no_add rounds _)) as Hall.
      rewrite Forall_forall in Hall. by apply Hall.
    + rewrite Hok in Hin. by apply elem_of_nil in Hin.
Qed.

(** What [main] has done when it closes the request channel. *)
Lemma main_before_close m1 m2 k :
  main_trace = (m1 ++ ECloseRequests :: m2) ++ k →
  m1 = take 7 main_trace ++ [EWgWait].
Proof.
  intros H. vm_compute in H.
  do 8 (destruct m1 as [|? m1]; [discriminate H|injection H as <- H]).
  destruct m1 as [|? m1]; [reflexivity|]. injection H as <- H.
  destruct m1 as [|? m1]; [discriminate H|]. injection H as <- H.
  destruct m1; discriminate H.
Qed.

End Counter_facts.

Section Done_placement.

Implicit Types (q : Philosopher) (B rest k : list event).

Lemma no_done_split B : ∀ rest (t1 t2 : list event),
  forallb (λ e, negb (is_done e)) B = true →
  B ++ rest = t1 ++ EWgDone :: t2 →
  ∃ k, t1 = B ++ k ∧ rest = k ++ EWgDone :: t2.
Proof.
  induction B as [|b B IH]; intros rest t1 t2 HB H; simpl in *.
  - by exists t1.
  - apply andb_true_iff in HB as [Hb HB].
    destruct t1 as [|x t1]; simpl in H; injection H as -> H.
    { discriminate Hb. }
    destruct (IH _ _ _ HB H) as (k & -> & ->). by exists k.
Qed.

(** In the loop of [eat], [wg.Done()] comes right after the two unlocks and
    right before the finished-eating message. *)
Lemma eat_loop_done_placed rounds : ∀ q (t1 t2 : list event),
  (eat_loop q rounds).1.1 = t1 ++ EWgDone :: t2 →
  ∃ t0 q' t3,
    t1 = t0 ++ [EUnlock (rightChopStick q); EUnlock (leftChopStick q)]
    ∧ t2 = ESendRequest (finished q') :: t3
    ∧ id q' = id q.
Proof.
  induction rounds as [|r rest IH]; intros q t1 t2.
  - rewrite eat_loop_nil. destruct (countEating q <? 3); simpl; intros H;
      destruct t1 as [|? [|? ?]]; discriminate H.
  - destruct (Z.ltb_spec (countEating q) 3) as [Hlt|Hge].
    + destruct (reply r) eqn:Hr.
      * rewrite eat_loop_admitted by done. cbv zeta. simpl fst.
        set (q1 := set_countEating q (int_wrap (countEating q + 1))).
        intros H.
        apply (no_done_split (ask q r ++ meal q r)
                 (EWgDone :: ESendRequest (finished q1) :: (eat_loop q1 rest).1.1))
          in H as (k & -> & H); [|reflexivity].
        destruct k as [|x k]; simpl in H.
        -- injection H as <-.
           exists (ask q r ++ take 5 (meal q r)), q1, (eat_loop q1 rest).1.1.
           split_and!; reflexivity.
        -- injection H as <- H.
           destruct k as [|y k]; simpl in H; [discriminate H|]. injection H as <- H.
           destruct (IH _ _ _ H) as (t0 & q' & t3 & -> & -> & Hid).
           exists (ask q r ++ meal q r ++ EWgDone :: ESendRequest (finished q1) :: t0),
                  q', t3.
           split_and!; [|reflexivity|exact Hid].
           simpl. reflexivity.
      * rewrite eat_loop_rejected by done. simpl fst. intros H.
        apply (no_done_split (ask q r) (eat_loop q rest).1.1)
          in H as (k & -> & H); [|reflexivity].
        destruct (IH _ _ _ H) as (t0 & q' & t3 & -> & -> & Hid).
        exists (ask q r ++ t0), q', t3. split_and!; [|reflexivity|exact Hid].
        by rewrite app_assoc.
    + rewrite eat_loop_done by done. simpl. intros H.
      destruct t1 as [|? [|? ?]]; discriminate H.
Qed.

End Done_placement.

Section Counter_claims.

(** C9: [main] starts by adding [maxPhilosophers * maxTimeToEat], that is 15,
    to the wait group and adds nothing afterwards; a philosopher calls
    [wg.Done()] once per meal it has completed, each time right after the
    two unlocks and right before sending finished-eating; and in every
    execution of the program, when [main] closes the request channel the
    counter is zero and [wg.Done()] has been called exactly 15 times. *)
Theorem C9_completion_counter :
  (∃ rest, main_trace = EWgAdd (maxPhilosophers * maxTimeToEat) :: rest
           ∧ wg_added rest = 0)
  ∧ maxPhilosophers * maxTimeToEat = 15
  ∧ (∀ p rounds,
        Z.of_nat (count_done (eat_trace p rounds)) = countEating (eat_final p rounds)
        ∧ ∀ t1 t2 : list event,
            eat_trace p rounds = t1 ++ EWgDone :: t2 →
            ∃ t0 q t3,
              t1 = t0 ++ [EUnlock (rightChopStick p); EUnlock (leftChopStick p)]
              ∧ t2 = ESendRequest (finished q) :: t3
              ∧ id q = id p)
  ∧ (∀ g g1 g2,
        execution g → g = g1 ++ (TMain, ECloseRequests) :: g2 →
        wg_run 0 g1.*2 = Some 0 ∧ count_done g1.*2 = 15%nat).
Proof.
  split_and!.
  - eexists. split; reflexivity.
  - reflexivity.
  - intros p rounds. split.
    + destruct (eat_spec p rounds) as (tr & c' & ret & E & _ & _ & _ & _ & Hdone).
      unfold eat_trace, eat_final. rewrite E. exact Hdone.
    + intros t1 t2 H.
      exact (eat_loop_done_placed rounds (set_countEating p 0) t1 t2 H).
  - intros g g1 g2 [Hok [c Hrun]] ->.
    pose proof (execution_only_main_adds _ Hok) as Hadds.
    pose proof (Hok TMain) as Hmain. unfold thread_ok in Hmain.
    rewrite events_of_app in Hmain. cbn [events_of thread_eqb] in Hmain.
    destruct Hmain as [k Hk]. apply main_before_close in Hk.
    destruct (events_of_split TMain g1 _ _ _ Hk) as (h1 & h2 & -> & Hh1 & Hh2).
    assert (Hadds1 : ∀ t e, (t, e) ∈ h1 → t ≠ TMain → is_add e = false).
    { intros t e Hin. apply Hadds. rewrite !elem_of_app. auto. }
    assert (Hadds2 : ∀ t e, (t, e) ∈ h2 → t ≠ TMain → is_add e = false).
    { intros t e Hin. apply Hadds. rewrite !elem_of_app, !elem_of_cons. auto. }
    apply wg_added_main in Hadds1. rewrite Hh1 in Hadds1.
    apply wg_added_main in Hadds2. rewrite Hh2 in Hadds2.
    change (wg_added (take 7 main_trace)) with 15 in Hadds1.
    change (wg_added []) with 0 in Hadds2.
    rewrite !fmap_app, !fmap_cons, !wg_run_app in Hrun. cbn [snd] in Hrun.
    rewrite fmap_app, fmap_cons. cbn [snd].
    rewrite wg_run_app, count_done_app.
    destruct (wg_run 0 h1.*2) as [ch|] eqn:Eh; [|done].
    destruct (wg_run_counter _ _ _ Eh) as [Hch _]; [lia|].
    cbn [mbind option_bind wg_run] in Hrun |- *.
    destruct (Z.eqb_spec ch 0) as [->|]; [|done].
    destruct (wg_run 0 h2.*2) as [c2|] eqn:E2; [|done].
    destruct (wg_run_counter _ _ _ E2) as [Hc2 Hpos]; [lia|].
    change (count_done (EWgWait :: h2.*2)) with (count_done h2.*2).
    split; [f_equal; lia|lia].
Qed.

Lemma C9_completion_counter_witness :
  wg_run 0 example_run_before_close.*2 = Some 0
  ∧ count_done example_run_before_close.*2 = 15%nat.
Proof.
  destruct C9_completion_counter as (_ & _ & _ & Hclose).
  apply (Hclose example_run example_run_before_close
                (tag TMain [EPrintln "All philosophers have finished eating, good bye"])).
  - split.
    + intros [| |n]; unfold thread_ok.
      * exists []. vm_compute. reflexivity.
      * eexists example_requests, _, _. split.
        -- vm_compute. reflexivity.
        -- exists []. vm_compute. reflexivity.
      * do 5 (destruct n as [|n];
              [exists example_rounds; exists []; vm_compute; reflexivity|]).
        vm_compute. reflexivity.
    + vm_compute. eexists. reflexivity.
  - reflexivity.
Defined.

End Counter_claims.

(** * More on the host *)

Section Host_more.

Implicit Types (s : gmap Z Philosopher) (p q : Philosopher) (r : Request).

Lemma reject_reasons_app out1 out2 :
  reject_reasons (out1 ++ out2) = reject_reasons out1 ++ reject_reasons out2.
Proof. unfold reject_reasons. apply flat_map_app. Qed.

Lemma feedback_sends_app out1 out2 :
  feedback_sends (out1 ++ out2) = feedback_sends out1 ++ feedback_sends out2.
Proof. unfold feedback_sends. apply flat_map_app. Qed.

Lemma is_want_want r : is_want r = true → r = want (philosopher r).
Proof.
  destruct r as [c p]. unfold is_want. simpl.
  destruct (String.eqb_spec c wantToEat) as [->|]; done.
Qed.

(** The single-member branch, spelled out on a map with one entry. *)
Lemma Host_step_single_table k v p :
  Host_step {[k := v]} (want p)
  = Some ({[k := v]},
          if (k =? 0) && (id p =? maxPhilosophers) then
            RejectRequestToEat p "Neighborhood 0-"
          else if (k =? maxPhilosophers) && (id p =? 0) then
            RejectRequestToEat p "Neiborhood -0"
          else if abs_float64_is_one (int_sub (id p) k) then
            RejectRequestToEat p "Neighborhood"
          else if id p =? k then
            RejectRequestToEat p "Philosopher alread eating"
          else AcceptRequestToEat p).
Proof.
  rewrite Host_step_want, map_size_singleton, map_to_list_singleton. simpl.
  repeat case_match; reflexivity.
Qed.

(** One iteration, by the size of the map and the command. *)
Lemma Host_step_shape s r s' out :
  Host_step s r = Some (s', out) →
  (is_want r = true ∧ s = ∅ ∧ s' = {[id (philosopher r) := philosopher r]}
   ∧ out = AcceptRequestToEat (philosopher r))
  ∨ (is_want r = true ∧ (∃ k v, s = {[k := v]}) ∧ s' = s
     ∧ Host_step s (want (philosopher r)) = Some (s, out))
  ∨ (is_want r = true ∧ (2 ≤ size s)%nat ∧ s' = s
     ∧ out = RejectRequestToEat (philosopher r)
                                "All allowed philoshopers are already eating")
  ∨ (is_want r = false ∧ is_finished r = true
     ∧ s' = delete (id (philosopher r)) s ∧ out = [])
  ∨ (is_want r = false ∧ is_finished r = false ∧ s' = s ∧ out = []).
Proof.
  destruct r as [c p]. unfold is_want, is_finished. simpl.
  destruct (String.eqb_spec c wantToEat) as [->|Hw].
  - change (mkRequest wantToEat p) with (want p).
    destruct (decide (size s = 0%nat)) as [H0|H0].
    { apply map_size_empty_inv in H0 as ->. rewrite Host_step_want_empty.
      intros; simplify_eq. left. done. }
    destruct (decide (size s = 1%nat)) as [H1|H1].
    { apply map_size_1_inv in H1 as (k & v & -> & _).
      destruct (Host_step_want_single k v p) as (o & E & _). rewrite E.
      intros; simplify_eq. right; left. eauto 8. }
    rewrite Host_step_want_full by lia.
    intros; simplify_eq. right; right; left. split_and!; [done|lia|done..].
  - intros Hstep. destruct (String.eqb_spec c finishedEating) as [->|Hf].
    + change (mkRequest finishedEating p) with (finished p) in Hstep.
      rewrite Host_step_finished in Hstep. simplify_eq.
      right; right; right; left. done.
    + rewrite Host_step_other in Hstep by done. simplify_eq.
      right; right; right; right. done.
Qed.

Lemma Host_loop_cons s r rest :
  Host_loop s (r :: rest)
  = match Host_step s r with
    | None => None
    | Some (s', out) =>
      match Host_loop s' rest with
      | None => None
      | Some (final, out') => Some (final, ERecvRequest r :: out ++ out')
      end
    end.
Proof. reflexivity. Qed.

(** X1: the host never panics: whatever map it starts from and whatever
    requests it receives, [keys[0]] is in range each time it is evaluated,
    and the loop has processed every request. *)
Theorem X1_Host_never_panics s requests :
  ∃ final out,
    Host_loop s requests = Some (final, out)
    ∧ List.filter (fun e => match e with ERecvRequest _ => true | _ => false end) out
      = map ERecvRequest requests.
Proof.
  revert s. induction requests as [|r rest IH]; intros s.
  - exists s, []. done.
  - rewrite Host_loop_cons.
    destruct (Host_step_total s r) as [[s' o] E]. rewrite E.
    destruct (IH s') as (final & o' & E' & Hrecv). rewrite E'.
    exists final, (ERecvRequest r :: o ++ o'). split; [done|].
    simpl. rewrite List.filter_app, Hrecv. f_equal.
    destruct (Host_step_shape _ _ _ _ E)
      as [(_&_&_&->)|[(_&(k&v&->)&_&E1)|[(_&_&_&->)|[(_&_&_&->)|(_&_&_&->)]]]];
      try reflexivity.
    rewrite Host_step_single_table in E1. simplify_eq.
    repeat case_match; reflexivity.
Qed.

Lemma Host_step_replies s r s' out :
  Host_step s r = Some (s', out) →
  (feedback_sends out).*1
  = if is_want r then [feedbackChannel (philosopher r)] else [].
Proof.
  intros Hstep.
  destruct (Host_step_shape _ _ _ _ Hstep)
    as [(->&_&_&->)|[(->&(k&v&->)&_&E1)|[(->&_&_&->)|[(->&_&_&->)|(->&_&_&->)]]]];
    try reflexivity.
  rewrite Host_step_single_table in E1. simplify_eq.
  repeat case_match; reflexivity.
Qed.

(** X3: the host answers the requests to eat in the order it receives
    them, each on the feedback channel of the philosopher who asked, and
    sends nothing else on any feedback channel: one reply per request to
    eat, none for any other request. *)
Theorem X3_replies_in_order s requests :
  ∃ final out,
    Host_loop s requests = Some (final, out)
    ∧ (feedback_sends out).*1
      = map (fun r => feedbackChannel (philosopher r)) (List.filter is_want requests).
Proof.
  revert s. induction requests as [|r rest IH]; intros s.
  - exists s, []. done.
  - rewrite Host_loop_cons.
    destruct (Host_step_total s r) as [[s' o] E]. rewrite E.
    destruct (IH s') as (final & o' & E' & Hrest). rewrite E'.
    exists final, (ERecvRequest r :: o ++ o'). split; [done|].
    change (feedback_sends (ERecvRequest r :: o ++ o'))
      with (feedback_sends (o ++ o')).
    rewrite feedback_sends_app, fmap_app, Hrest, (Host_step_replies _ _ _ _ E).
    simpl. by destruct (is_want r).
Qed.

Lemma Host_step_events s r s' out :
  Host_step s r = Some (s', out) → Forall (fun e => host_event e = true) out.
Proof.
  intros Hstep.
  destruct (Host_step_cases s r)
    as [(_&_&E)|[(_&_&?&E&[->|[? ->]])|[(_&E)|(_&_&E)]]];
    rewrite E in Hstep; simplify_eq; repeat constructor.
Qed.

Lemma Host_loop_events requests : ∀ s final out,
  Host_loop s requests = Some (final, out) →
  Forall (fun e => host_event e = true) out.
Proof.
  induction requests as [|r rest IH]; intros s final out.
  - simpl. intros; simplify_eq. constructor.
  - rewrite Host_loop_cons.
    destruct (Host_step s r) as [[s' o]|] eqn:E; [|done].
    destruct (Host_loop s' rest) as [[f o']|] eqn:E'; [|done].
    intros; simplify_eq. constructor; [done|].
    apply Forall_app. split; [by eapply Host_step_events|by eapply IH].
Qed.

(** X4: the host only receives requests, prints, and sends on feedback
    channels: it never locks or unlocks a chopstick, never touches the wait
    group, never closes a channel and never starts a goroutine. *)
Theorem X4_Host_events s requests :
  ∃ final out,
    Host_loop s requests = Some (final, out)
    ∧ Forall (fun e => host_event e = true) out.
Proof.
  destruct (Host_loop_total s requests) as [[final out] E].
  exists final, out. split; [exact E|]. by eapply Host_loop_events.
Qed.

Lemma Host_step_no_capacity s r s' out :
  (size s ≤ 1)%nat → Host_step s r = Some (s', out) →
  "All allowed philoshopers are already eating" ∉ reject_reasons out.
Proof.
  intros Hsz Hstep.
  destruct (Host_step_shape _ _ _ _ Hstep)
    as [(_&_&_&->)|[(_&(k&v&->)&_&E1)|[(_&?&_&_)|[(_&_&_&->)|(_&_&_&->)]]]];
    try (simpl; apply not_elem_of_nil); [|lia].
  rewrite Host_step_single_table in E1. simplify_eq.
  repeat case_match; simpl;
    try apply not_elem_of_nil; by intros ?%list_elem_of_singleton.
Qed.

Lemma Host_loop_no_capacity requests : ∀ s final out,
  (size s ≤ 1)%nat → Host_loop s requests = Some (final, out) →
  "All allowed philoshopers are already eating" ∉ reject_reasons out.
Proof.
  induction requests as [|r rest IH]; intros s final out Hsz.
  - simpl. intros; simplify_eq. apply not_elem_of_nil.
  - rewrite Host_loop_cons.
    destruct (Host_step s r) as [[s' o]|] eqn:E; [|done].
    destruct (Host_loop s' rest) as [[f o']|] eqn:E'; [|done].
    intros; simplify_eq.
    change (reject_reasons (ERecvRequest r :: o ++ o'))
      with (reject_reasons (o ++ o')).
    rewrite reject_reasons_app, elem_of_app. intros [Hin|Hin].
    + by eapply Host_step_no_capacity.
    + eapply IH; [|done..]. by eapply Host_step_size.
Qed.

(** X5: started on the empty map, the host never rejects a request for
    capacity: the reason [All allowed philoshopers are already eating] is
    never printed, whatever the requests. *)
Theorem X5_capacity_never_reached requests :
  ∃ final out,
    Host requests = Some (final, out)
    ∧ "All allowed philoshopers are already eating" ∉ reject_reasons out.
Proof.
  destruct (Host_loop_total ∅ requests) as [[final out] E].
  exists final, out. split; [exact E|].
  eapply Host_loop_no_capacity; [|exact E]. rewrite map_size_empty. lia.
Qed.

Lemma Host_step_at_table s r s' out :
  keys_at_table s → 0 <= id (philosopher r) < maxPhilosophers →
  Host_step s r = Some (s', out) →
  keys_at_table s'
  ∧ ("Neighborhood 0-" ∉ reject_reasons out)
  ∧ ("Neiborhood -0" ∉ reject_reasons out).
Proof.
  unfold keys_at_table, maxPhilosophers. intros Hkeys Hid Hstep.
  destruct (Host_step_shape _ _ _ _ Hstep)
    as [(_&_&->&->)|[(_&(k&v&->)&->&E1)|[(_&_&->&->)|[(_&_&->&->)|(_&_&->&->)]]]].
  - split_and!; try (simpl; apply not_elem_of_nil).
    intros k [x [<- _]%lookup_singleton_Some]. done.
  - split; [done|].
    assert (0 <= k < 5) as Hk by (apply Hkeys; rewrite lookup_singleton_eq; eauto).
    rewrite Host_step_single_table in E1. simplify_eq. unfold maxPhilosophers.
    destruct (Z.eqb_spec k 0), (Z.eqb_spec (id (philosopher r)) 5),
      (Z.eqb_spec k 5), (Z.eqb_spec (id (philosopher r)) 0); try lia; simpl;
      repeat case_match; simpl;
      split; try apply not_elem_of_nil; by intros ?%list_elem_of_singleton.
  - split_and!; [done|simpl..]; by intros ?%list_elem_of_singleton.
  - split_and!; try (simpl; apply not_elem_of_nil).
    intros k [x [_ Hx]%lookup_delete_Some]. apply Hkeys. eauto.
  - split_and!; try (simpl; apply not_elem_of_nil). done.
Qed.

(** X6: when every request comes from a philosopher of the table
    (identity 0 to 4), the two wrap-around tests of the host never succeed:
    neither [Neighborhood 0-] nor [Neiborhood -0] is ever given as a
    reason. *)
Theorem X6_wraparound_tests_never_fire requests final out :
  Forall (fun r => 0 <= id (philosopher r) < maxPhilosophers) requests →
  Host requests = Some (final, out) →
  ("Neighborhood 0-" ∉ reject_reasons out) ∧ ("Neiborhood -0" ∉ reject_reasons out).
Proof.
  unfold Host.
  assert (Hempty : keys_at_table ∅).
  { intros k [x Hx]. by rewrite lookup_empty in Hx. }
  revert Hempty. generalize (∅ : gmap Z Philosopher) as s. revert final out.
  induction requests as [|r rest IH]; intros final out s Hkeys Hids.
  - simpl. intros; simplify_eq. split; apply not_elem_of_nil.
  - apply Forall_cons in Hids as [Hid Hids]. rewrite Host_loop_cons.
    destruct (Host_step s r) as [[s' o]|] eqn:E; [|done].
    destruct (Host_loop s' rest) as [[f o']|] eqn:E'; [|done].
    intros; simplify_eq.
    destruct (Host_step_at_table _ _ _ _ Hkeys Hid E) as (Hkeys' & H1 & H2).
    destruct (IH _ _ _ Hkeys' Hids E') as [H1' H2'].
    change (reject_reasons (ERecvRequest r :: o ++ o'))
      with (reject_reasons (o ++ o')).
    rewrite reject_reasons_app, !elem_of_app. tauto.
Qed.

Lemma X6_wraparound_tests_never_fire_witness :
  ("Neighborhood 0-" ∉ reject_reasons
     ([ERecvRequest (want (new_philosopher 0))]
        ++ AcceptRequestToEat (new_philosopher 0)
        ++ [ERecvRequest (want (new_philosopher 4))]
        ++ AcceptRequestToEat (new_philosopher 4)))
  ∧ ("Neiborhood -0" ∉ reject_reasons
     ([ERecvRequest (want (new_philosopher 0))]
        ++ AcceptRequestToEat (new_philosopher 0)
        ++ [ERecvRequest (want (new_philosopher 4))]
        ++ AcceptRequestToEat (new_philosopher 4))).
Proof.
  apply (X6_wraparound_tests_never_fire
           [want (new_philosopher 0); want (new_philosopher 4)]
           {[0 := new_philosopher 0]}).
  - repeat constructor; unfold maxPhilosophers; simpl; lia.
  - vm_compute. reflexivity.
Defined.

(** X7: the decision of the host when one philosopher of the table is in
    its map and another philosopher of the table asks: rejected as
    [Philosopher alread eating] when it is the same philosopher, rejected as
    [Neighborhood] when the identities differ by one, accepted otherwise; the
    map is left as it is in the three cases. *)
Theorem X7_single_member_table Y q p :
  0 <= Y < maxPhilosophers → 0 <= id p < maxPhilosophers →
  Host_step {[Y := q]} (want p)
  = Some ({[Y := q]},
          if id p =? Y then RejectRequestToEat p "Philosopher alread eating"
          else if Z.abs (id p - Y) =? 1 then RejectRequestToEat p "Neighborhood"
          else AcceptRequestToEat p).
Proof.
  unfold maxPhilosophers. intros HY HX.
  rewrite Host_step_single_table.
  unfold maxPhilosophers, abs_float64_is_one, int_sub.
  rewrite int_wrap_small by lia.
  destruct (Z.eqb_spec Y 0), (Z.eqb_spec (id p) 5), (Z.eqb_spec Y 5),
    (Z.eqb_spec (id p) 0), (Z.eqb_spec (Z.abs (id p - Y)) 1),
    (Z.eqb_spec (id p) Y); simpl; try lia; reflexivity.
Qed.

Lemma X7_single_member_table_witness :
  Host_step {[1 := new_philosopher 1]} (want (new_philosopher 2))
  = Some ({[1 := new_philosopher 1]},
          RejectRequestToEat (new_philosopher 2) "Neighborhood").
Proof.
  apply (X7_single_member_table 1 (new_philosopher 1) (new_philosopher 2));
    unfold maxPhilosophers; simpl; lia.
Defined.

Lemma Host_loop_stored (Q : Philosopher → Prop) requests : ∀ s final out,
  (∀ k v, s !! k = Some v → id v = k ∧ Q v) →
  Forall (fun r => is_want r = true → Q (philosopher r)) requests →
  Host_loop s requests = Some (final, out) →
  ∀ k v, final !! k = Some v → id v = k ∧ Q v.
Proof.
  induction requests as [|r rest IH]; intros s final out Hs Hreq.
  - simpl. intros; simplify_eq. eauto.
  - apply Forall_cons in Hreq as [Hr Hreq]. rewrite Host_loop_cons.
    destruct (Host_step s r) as [[s' o]|] eqn:E; [|done].
    destruct (Host_loop s' rest) as [[f o']|] eqn:E'; [|done].
    intros ? k v Hk; simplify_eq. revert k v Hk. eapply IH; [|done..].
    intros k v Hk.
    destruct (Host_step_shape _ _ _ _ E)
      as [(Hw&_&->&_)|[(_&_&->&_)|[(_&_&->&_)|[(_&_&->&_)|(_&_&->&_)]]]];
      eauto.
    + apply lookup_singleton_Some in Hk as [<- <-]. eauto.
    + apply lookup_delete_Some in Hk as [_ Hk]. eauto.
Qed.

(** X8: an entry of the host's map is always filed under the identity of
    the philosopher it holds, and that philosopher is the one carried by a
    request to eat the host has received. *)
Theorem X8_map_keyed_by_id requests final out k v :
  Host requests = Some (final, out) → final !! k = Some v →
  id v = k ∧ want v ∈ requests.
Proof.
  intros Hhost. eapply (Host_loop_stored (fun v => want v ∈ requests)); [| |exact Hhost].
  - intros k' v' Hk'. by rewrite lookup_empty in Hk'.
  - apply Forall_forall. intros r Hin Hw. by rewrite <- (is_want_want r Hw).
Qed.

Lemma X8_map_keyed_by_id_witness :
  id (new_philosopher 0) = 0
  ∧ want (new_philosopher 0) ∈ [want (new_philosopher 0); want (new_philosopher 2)].
Proof.
  apply (X8_map_keyed_by_id [want (new_philosopher 0); want (new_philosopher 2)]
                            {[0 := new_philosopher 0]}
                            ([ERecvRequest (want (new_philosopher 0))]
                               ++ AcceptRequestToEat (new_philosopher 0)
                               ++ [ERecvRequest (want (new_philosopher 2))]
                               ++ AcceptRequestToEat (new_philosopher 2))
                            0 (new_philosopher 0)).
  - vm_compute. reflexivity.
  - vm_compute. reflexivity.
Defined.

(** X9: philosophers served one at a time are all accepted: when each
    request to eat is followed by the finished-eating message of the same
    philosopher before the next request arrives, the host replies [true] to
    every one of them, whoever they are, and ends on the empty map. *)
Theorem X9_one_at_a_time l :
  ∃ out,
    Host (one_at_a_time l) = Some (∅, out)
    ∧ feedback_sends out = map (fun pn => (feedbackChannel pn.1, true)) l.
Proof.
  unfold Host. induction l as [|[p n] l (out & E & Hout)].
  - exists []. done.
  - cbn [one_at_a_time flat_map app fst snd].
    fold (one_at_a_time l).
    rewrite Host_loop_cons, Host_step_want_empty.
    rewrite Host_loop_cons, Host_step_finished.
    change (id (set_countEating p n)) with (id p).
    rewrite delete_singleton_eq, E.
    eexists. split; [reflexivity|]. simpl. by rewrite Hout.
Qed.

(** X10: requests whose command is neither of the two known ones, such as
    the zero requests received once the request channel is closed, leave
    the map as it is and make the host send and print nothing, however many
    they are. *)
Theorem X10_unknown_commands s requests :
  Forall (fun r => is_want r = false ∧ is_finished r = false) requests →
  Host_loop s requests = Some (s, map ERecvRequest requests).
Proof.
  induction requests as [|r rest IH]; intros Hreq; [done|].
  apply Forall_cons in Hreq as [[Hw Hf] Hreq].
  rewrite Host_loop_cons, Host_step_other, (IH Hreq); [done|..].
  - intros Hc. unfold is_want in Hw. rewrite Hc in Hw. done.
  - intros Hc. unfold is_finished in Hf. rewrite Hc in Hf. done.
Qed.

Lemma X10_unknown_commands_witness :
  Host_loop {[0 := new_philosopher 0]} (replicate 3 zero_Request)
  = Some ({[0 := new_philosopher 0]}, map ERecvRequest (replicate 3 zero_Request)).
Proof.
  apply (X10_unknown_commands {[0 := new_philosopher 0]} (replicate 3 zero_Request)).
  repeat constructor.
Defined.

End Host_more.

(** * More on the philosopher *)

Section Philosopher_more.

Implicit Types (p q : Philosopher) (rounds more : list round) (tr : list event).

Lemma count_events_app f tr1 tr2 :
  count_events f (tr1 ++ tr2) = (count_events f tr1 + count_events f tr2)%nat.
Proof. unfold count_events. by rewrite List.filter_app, length_app. Qed.

Lemma eat_loop_own rounds : ∀ q,
  Forall (fun e => own_event q e = true) (eat_loop q rounds).1.1.
Proof.
  induction rounds as [|r rest IH]; intros q.
  - rewrite eat_loop_nil. destruct (countEating q <? 3); simpl;
      repeat constructor. simpl. apply Nat.eqb_refl.
  - destruct (Z.ltb_spec (countEating q) 3) as [Hlt|Hge].
    + destruct (reply r) eqn:Hr.
      * rewrite eat_loop_admitted by done. cbv zeta. simpl.
        repeat (constructor;
                [simpl; rewrite ?Z.eqb_refl, ?Nat.eqb_refl, ?orb_true_r; reflexivity|]).
        exact (IH (set_countEating q (int_wrap (countEating q + 1)))).
      * rewrite eat_loop_rejected by done. simpl.
        repeat (constructor;
                [simpl; rewrite ?Z.eqb_refl, ?Nat.eqb_refl, ?orb_true_r; reflexivity|]).
        exact (IH q).
    + rewrite eat_loop_done by done. simpl. repeat constructor.
      simpl. apply Nat.eqb_refl.
Qed.

(** X11: whatever replies it gets, a philosopher running [eat] only sends
    requests that carry its own identity, chopsticks and feedback channel,
    under one of the two commands; it receives on and closes its own
    feedback channel only, locks and unlocks its own two chopsticks only,
    and never adds to or waits on the wait group, never sends on a feedback
    channel, and never closes the request channel. *)
Theorem X11_eat_own_events p rounds :
  Forall (fun e => own_event p e = true) (eat_trace p rounds).
Proof. exact (eat_loop_own rounds (set_countEating p 0)). Qed.

Lemma eat_loop_counts rounds : ∀ q,
  let tr := (eat_loop q rounds).1.1 in
  count_events is_want_send tr = count_events is_recv tr
  ∧ count_events is_finished_send tr = count_events is_recv_true tr
  ∧ count_events is_recv_true tr = count_done tr
  ∧ (count_events is_want_send tr ≤ length rounds)%nat
  ∧ ((eat_loop q rounds).2 = false → count_events is_want_send tr = length rounds).
Proof.
  induction rounds as [|r rest IH]; intros q; cbv zeta.
  - rewrite eat_loop_nil. destruct (countEating q <? 3); simpl; split_and!; done.
  - destruct (Z.ltb_spec (countEating q) 3) as [Hlt|Hge].
    + destruct (reply r) eqn:Hr.
      * rewrite eat_loop_admitted by done. cbv zeta.
        destruct (IH (set_countEating q (int_wrap (countEating q + 1))))
          as (H1 & H2 & H3 & H4 & H5).
        unfold ask, meal. rewrite Hr. unfold count_events, count_done in *.
        simpl in *. split_and!; try lia. intros Hret. rewrite H5; done.
      * rewrite eat_loop_rejected by done.
        destruct (IH q) as (H1 & H2 & H3 & H4 & H5).
        unfold ask. rewrite Hr. unfold count_events, count_done in *.
        simpl in *. split_and!; try lia. intros Hret. rewrite H5; done.
    + rewrite eat_loop_done by done. simpl. split_and!; try done.
      unfold count_events. simpl. lia.
Qed.

(** X12: in [eat], the philosopher receives one reply per request to eat it
    has sent, sends one finished-eating message per [true] reply and calls
    [wg.Done()] as many times; it sends at most one request to eat per
    round, and exactly one per round as long as it has not returned. *)
Theorem X12_eat_handshake p rounds :
  count_events is_want_send (eat_trace p rounds)
  = count_events is_recv (eat_trace p rounds)
  ∧ count_events is_finished_send (eat_trace p rounds)
    = count_events is_recv_true (eat_trace p rounds)
  ∧ count_events is_recv_true (eat_trace p rounds) = count_done (eat_trace p rounds)
  ∧ (count_events is_want_send (eat_trace p rounds) ≤ length rounds)%nat
  ∧ (eat_returned p rounds = false →
     count_events is_want_send (eat_trace p rounds) = length rounds).
Proof. exact (eat_loop_counts rounds (set_countEating p 0)). Qed.

Lemma X12_eat_handshake_witness :
  count_events is_want_send
    (eat_trace (new_philosopher 1) [mkRound 10 false 0; mkRound 20 true 30])
  = 2%nat.
Proof.
  destruct (X12_eat_handshake (new_philosopher 1)
              [mkRound 10 false 0; mkRound 20 true 30]) as (_ & _ & _ & _ & Hall).
  apply Hall. reflexivity.
Defined.

Lemma held_after_app t1 : ∀ held t2,
  held_after held (t1 ++ t2) = held_after held t1 ≫= λ h, held_after h t2.
Proof.
  induction t1 as [|e t1 IH]; intros held t2; [done|].
  destruct e; simpl; try apply IH; case_match; done || apply IH.
Qed.

Ltac step_held Hrl :=
  repeat (progress (simpl; rewrite ?Nat.eqb_refl, ?Hrl)).

(** The chopsticks held at each point of an accepted round. *)
Lemma held_in_meal q r q' (t1 k : list event) :
  leftChopStick q ≠ rightChopStick q →
  ask q r ++ meal q r ++ [EWgDone; ESendRequest (finished q')] = t1 ++ k →
  ∃ held, held_after [] t1 = Some held ∧ holds_own q held.
Proof.
  intros Hneq H. unfold holds_own.
  assert (Hrl : Nat.eqb (rightChopStick q) (leftChopStick q) = false).
  { apply Nat.eqb_neq. congruence. }
  simpl in H.
  do 12 (destruct t1 as [|? t1];
         [clear H; step_held Hrl; eauto|injection H as <- H]).
  destruct t1; [|discriminate H]. clear H. step_held Hrl. eauto.
Qed.

Lemma held_after_meal q r q' :
  leftChopStick q ≠ rightChopStick q →
  held_after [] (ask q r ++ meal q r ++ [EWgDone; ESendRequest (finished q')])
  = Some [].
Proof.
  intros Hneq.
  assert (Hrl : Nat.eqb (rightChopStick q) (leftChopStick q) = false).
  { apply Nat.eqb_neq. congruence. }
  step_held Hrl. reflexivity.
Qed.

Lemma held_in_ask q r (t1 k : list event) :
  ask q r = t1 ++ k → held_after [] t1 = Some [].
Proof.
  intros H. simpl in H.
  do 3 (destruct t1 as [|? t1]; [reflexivity|injection H as <- H]).
  destruct t1; [reflexivity|discriminate H].
Qed.

Lemma eat_loop_held rounds : ∀ q,
  leftChopStick q ≠ rightChopStick q →
  held_after [] (eat_loop q rounds).1.1 = Some []
  ∧ ∀ t1 t2 : list event,
      (eat_loop q rounds).1.1 = t1 ++ t2 →
      ∃ held, held_after [] t1 = Some held ∧ holds_own q held.
Proof.
  induction rounds as [|r rest IH]; intros q Hneq.
  - rewrite eat_loop_nil. destruct (countEating q <? 3); simpl.
    + split; [done|]. intros [|? ?] t2 H; [|discriminate H].
      exists []. split; [done|by left].
    + split; [done|]. intros [|? [|? ?]] t2 H; simplify_eq/=;
        exists []; (split; [reflexivity|by left]).
  - destruct (Z.ltb_spec (countEating q) 3) as [Hlt|Hge].
    + destruct (reply r) eqn:Hr.
      * rewrite eat_loop_admitted by done. cbv zeta.
        set (q1 := set_countEating q (int_wrap (countEating q + 1))).
        destruct (IH q1 Hneq) as [Hfull Hpre]. cbn [fst].
        set (B := ask q r ++ meal q r ++ [EWgDone; ESendRequest (finished q1)]).
        change (ask q r ++ meal q r
                  ++ [EWgDone; ESendRequest (finished q1)] ++ (eat_loop q1 rest).1.1)
          with (B ++ (eat_loop q1 rest).1.1).
        split.
        -- rewrite held_after_app. unfold B. rewrite held_after_meal by done.
           exact Hfull.
        -- intros t1 t2 H. apply app_eq_app in H as [k [[HB _]|[-> Hk]]].
           ++ by eapply held_in_meal.
           ++ destruct (Hpre _ _ Hk) as (held & Hheld & Hown).
              exists held. split; [|exact Hown].
              rewrite held_after_app. unfold B. by rewrite held_after_meal.
      * rewrite eat_loop_rejected by done. cbn [fst].
        destruct (IH q Hneq) as [Hfull Hpre]. split.
        -- rewrite held_after_app, (held_in_ask q r (ask q r) []); [done|].
           by rewrite app_nil_r.
        -- intros t1 t2 H. apply app_eq_app in H as [k [[HB _]|[-> Hk]]].
           ++ exists []. split; [by eapply held_in_ask|by left].
           ++ destruct (Hpre _ _ Hk) as (held & Hheld & Hown).
              exists held. split; [|exact Hown].
              rewrite held_after_app, (held_in_ask q r (ask q r) []); [done|].
              by rewrite app_nil_r.
    + rewrite eat_loop_done by done. simpl.
      split; [done|]. intros [|? [|? ?]] t2 H; simplify_eq/=;
        exists []; (split; [reflexivity|by left]).
Qed.

(** X14: a philosopher whose two chopsticks are different mutexes follows
    the locking discipline all along [eat]: it never locks a chopstick it
    holds and never unlocks one it does not hold; at every point it holds
    nothing, its left chopstick, or both (the right one taken last); and it
    holds nothing at the end of any round, in particular when it returns. *)
Theorem X14_eat_lock_discipline p rounds :
  leftChopStick p ≠ rightChopStick p →
  held_after [] (eat_trace p rounds) = Some []
  ∧ ∀ t1 t2 : list event,
      eat_trace p rounds = t1 ++ t2 →
      ∃ held, held_after [] t1 = Some held ∧ holds_own p held.
Proof. exact (eat_loop_held rounds (set_countEating p 0)). Qed.

Lemma X14_eat_lock_discipline_witness :
  held_after [] (eat_trace (new_philosopher 4) example_rounds) = Some [].
Proof.
  apply (X14_eat_lock_discipline (new_philosopher 4) example_rounds).
  vm_compute. discriminate.
Defined.

Lemma eat_loop_sleeps rounds : ∀ q,
  Forall (fun r => 0 <= think_rand r < 300 ∧ 0 <= eat_rand r < 500) rounds →
  let tr := (eat_loop q rounds).1.1 in
  Forall (fun ms => 0 <= ms < 550) (sleeps tr)
  ∧ Forall (fun ms => 50 <= ms < 550) (meal_sleeps tr)
  ∧ length (meal_sleeps tr) = count_done tr.
Proof.
  induction rounds as [|r rest IH]; intros q Hr; cbv zeta.
  - rewrite eat_loop_nil. destruct (countEating q <? 3); simpl;
      split_and!; done || constructor.
  - apply Forall_cons in Hr as [[Hthink Heat] Hrest].
    destruct (Z.ltb_spec (countEating q) 3) as [Hlt|Hge].
    + destruct (reply r) eqn:Hreply.
      * rewrite eat_loop_admitted by done. cbv zeta.
        destruct (IH (set_countEating q (int_wrap (countEating q + 1))) Hrest)
          as (H1 & H2 & H3).
        unfold count_done in *. simpl. split_and!.
        -- constructor; [lia|]. constructor; [lia|]. exact H1.
        -- constructor; [lia|]. exact H2.
        -- simpl. by rewrite H3.
      * rewrite eat_loop_rejected by done.
        destruct (IH q Hrest) as (H1 & H2 & H3).
        unfold count_done in *. simpl. split_and!; [|done..].
        constructor; [lia|]. exact H1.
    + rewrite eat_loop_done by done. simpl. split_and!; done || constructor.
Qed.

(** X15: when the random draws are what [rand.Intn(300)] and
    [rand.Intn(500)] return, every sleep of [eat] lasts less than 550 ms,
    every meal lasts at least 50 ms and less than 550 ms, and there is one
    meal per call of [wg.Done()]. *)
Theorem X15_eat_sleep_bounds p rounds :
  Forall (fun r => 0 <= think_rand r < 300 ∧ 0 <= eat_rand r < 500) rounds →
  Forall (fun ms => 0 <= ms < 550) (sleeps (eat_trace p rounds))
  ∧ Forall (fun ms => 50 <= ms < 550) (meal_sleeps (eat_trace p rounds))
  ∧ length (meal_sleeps (eat_trace p rounds)) = count_done (eat_trace p rounds).
Proof. exact (eat_loop_sleeps rounds (set_countEating p 0)). Qed.

Lemma X15_eat_sleep_bounds_witness :
  Forall (fun ms => 0 <= ms < 550) (sleeps (eat_trace (new_philosopher 2) example_rounds))
  ∧ Forall (fun ms => 50 <= ms < 550)
           (meal_sleeps (eat_trace (new_philosopher 2) example_rounds))
  ∧ length (meal_sleeps (eat_trace (new_philosopher 2) example_rounds))
    = count_done (eat_trace (new_philosopher 2) example_rounds).
Proof.
  apply (X15_eat_sleep_bounds (new_philosopher 2) example_rounds).
  repeat constructor; simpl; lia.
Defined.

End Philosopher_more.

(** * More on the coordinator and on executions *)

Section Coordinator_more.

Implicit Types (g h : list (thread * event)) (p q : Philosopher).

(** X16: the table [main] lays: the philosopher at index [i] has identity
    [i], chopsticks [i] and [(i + 1) mod 5], which are different, and a
    feedback channel of its own; and two different philosophers have a
    chopstick in common exactly when their identities are adjacent around
    the table. *)
Theorem X16_table_wiring (i j : nat) p q :
  philosophers !! i = Some p → philosophers !! j = Some q →
  id p = Z.of_nat i
  ∧ leftChopStick p = i
  ∧ rightChopStick p = ((i + 1) mod 5)%nat
  ∧ leftChopStick p ≠ rightChopStick p
  ∧ (feedbackChannel p = feedbackChannel q → i = j)
  ∧ (i ≠ j → shares_chopstick p q = ring_adjacent (id p) (id q)).
Proof.
  intros Hi Hj.
  pose proof (lookup_lt_Some _ _ _ Hi) as Hli.
  pose proof (lookup_lt_Some _ _ _ Hj) as Hlj.
  change (length philosophers) with 5%nat in Hli, Hlj.
  destruct i as [|[|[|[|[|?]]]]]; [..|lia];
    destruct j as [|[|[|[|[|?]]]]]; [..|lia];
    vm_compute in Hi, Hj; simplify_eq;
    (split_and!; [reflexivity|reflexivity|reflexivity|discriminate| |]);
    try (intros Hch; vm_compute in Hch; done);
    try (intros Hne; by destruct Hne);
    intros _; vm_compute; reflexivity.
Qed.

Lemma X16_table_wiring_witness :
  shares_chopstick (new_philosopher 4) (new_philosopher 0)
  = ring_adjacent (id (new_philosopher 4)) (id (new_philosopher 0)).
Proof.
  destruct (X16_table_wiring 4 0 (new_philosopher 4) (new_philosopher 0))
    as (_ & _ & _ & _ & _ & Hshare); [reflexivity..|].
  apply Hshare. discriminate.
Defined.

Lemma count_done_cons e l :
  count_done (e :: l) = ((if is_done e then 1 else 0) + count_done l)%nat.
Proof. unfold count_done. simpl. by destruct (is_done e). Qed.

Lemma count_done_prefix (l1 l2 : list event) :
  l1 `prefix_of` l2 → (count_done l1 ≤ count_done l2)%nat.
Proof. intros [k ->]. rewrite count_done_app. lia. Qed.

Lemma count_done_events_of_other t u e g :
  is_done e = false →
  count_done (events_of t ((u, e) :: g)) = count_done (events_of t g).
Proof.
  intros He. simpl. destruct (thread_eqb t u); [|done].
  by rewrite count_done_cons, He.
Qed.

(** The calls of [wg.Done()] of an interleaving, shared out among the five
    philosophers, when nobody else calls it. *)
Lemma count_done_by_philosopher g :
  (∀ t e, (t, e) ∈ g → is_done e = true → ∃ n, t = TPhilosopher n ∧ (n < 5)%nat) →
  count_done g.*2
  = (count_done (events_of (TPhilosopher 0) g)
     + count_done (events_of (TPhilosopher 1) g)
     + count_done (events_of (TPhilosopher 2) g)
     + count_done (events_of (TPhilosopher 3) g)
     + count_done (events_of (TPhilosopher 4) g))%nat.
Proof.
  induction g as [|[u x] g IH]; intros Hg; [done|].
  assert (IH' := IH (λ t e Hin, Hg t e (list_elem_of_further _ _ _ Hin))).
  rewrite fmap_cons. cbn [snd]. rewrite count_done_cons.
  destruct (is_done x) eqn:Hx.
  - destruct (Hg u x) as (n & -> & Hn); [left|done|].
    rewrite IH'. cbn [events_of thread_eqb].
    destruct n as [|[|[|[|[|?]]]]]; [..|lia]; cbn [Nat.eqb];
      rewrite count_done_cons, Hx; lia.
  - rewrite !count_done_events_of_other by done. rewrite IH'. lia.
Qed.

Lemma main_trace_no_done : Forall (fun e => is_done e = false) main_trace.
Proof. repeat constructor. Qed.

(** In an execution only the five philosophers call [wg.Done()]. *)
Lemma execution_only_philosophers_done g :
  (∀ t, thread_ok t (events_of t g)) →
  ∀ t e, (t, e) ∈ g → is_done e = true → ∃ n, t = TPhilosopher n ∧ (n < 5)%nat.
Proof.
  intros Hok t e Hin He. apply elem_events_of in Hin.
  specialize (Hok t). destruct t as [| |n]; simpl in Hok.
  - pose proof (Forall_prefix _ _ _ Hok main_trace_no_done) as Hall.
    rewrite Forall_forall in Hall. rewrite (Hall _ Hin) in He. done.
  - destruct Hok as (requests & final & out & Hhost & Hpre).
    pose proof (Forall_prefix _ _ _ Hpre (Host_loop_events _ _ _ _ Hhost)) as Hall.
    rewrite Forall_forall in Hall. specialize (Hall _ Hin).
    destruct e; done.
  - exists n. split; [done|].
    destruct (philosophers !! n) as [p|] eqn:Hp.
    + apply lookup_lt_Some in Hp. exact Hp.
    + rewrite Hok in Hin. by apply elem_of_nil in Hin.
Qed.

(** A philosopher calls [wg.Done()] at most three times. *)
Lemma philosopher_done_at_most_three g n :
  thread_ok (TPhilosopher n) (events_of (TPhilosopher n) g) →
  (count_done (events_of (TPhilosopher n) g) ≤ 3)%nat.
Proof.
  simpl. destruct (philosophers !! n) as [p|];
    [|intros ->; unfold count_done; simpl; lia].
  intros (rounds & Hpre). apply count_done_prefix in Hpre.
  destruct (eat_spec p rounds) as (tr & c' & ret & E & Hc' & _ & _ & _ & Hdone).
  unfold eat_trace in Hpre. rewrite E in Hpre. simpl in Hpre. lia.
Qed.

Lemma thread_ok_prefix t (l1 l2 : list event) :
  l1 `prefix_of` l2 → thread_ok t l2 → thread_ok t l1.
Proof.
  intros Hpre. destruct t as [| |n]; simpl.
  - intros H. by etrans.
  - intros (requests & final & out & Hhost & H). exists requests, final, out.
    split; [done|]. by etrans.
  - destruct (philosophers !! n).
    + intros (rounds & H). exists rounds. by etrans.
    + intros ->. by apply prefix_nil_inv in Hpre.
Qed.

(** The beginning of an execution is an execution. *)
Lemma execution_prefix g1 g2 : execution (g1 ++ g2) → execution g1.
Proof.
  intros [Hok [c Hrun]]. split.
  - intros t. eapply thread_ok_prefix; [|apply (Hok t)].
    rewrite events_of_app. by apply prefix_app_r.
  - rewrite fmap_app, wg_run_app in Hrun.
    destruct (wg_run 0 g1.*2); [eauto|done].
Qed.

(** When [main] closes the request channel, [wg.Done()] has been called 15
    times. *)
Lemma fifteen_done_before_close g1 g2 :
  execution (g1 ++ (TMain, ECloseRequests) :: g2) → count_done g1.*2 = 15%nat.
Proof.
  intros [Hok [c Hrun]].
  pose proof (execution_only_main_adds _ Hok) as Hadds.
  pose proof (Hok TMain) as Hmain. unfold thread_ok in Hmain.
  rewrite events_of_app in Hmain. cbn [events_of thread_eqb] in Hmain.
  destruct Hmain as [k Hk]. apply main_before_close in Hk.
  destruct (events_of_split TMain g1 _ _ _ Hk) as (h1 & h2 & -> & Hh1 & Hh2).
  assert (Hadds1 : ∀ t e, (t, e) ∈ h1 → t ≠ TMain → is_add e = false).
  { intros t e Hin. apply Hadds. rewrite !elem_of_app. auto. }
  assert (Hadds2 : ∀ t e, (t, e) ∈ h2 → t ≠ TMain → is_add e = false).
  { intros t e Hin. apply Hadds. rewrite !elem_of_app, !elem_of_cons. auto. }
  apply wg_added_main in Hadds1. rewrite Hh1 in Hadds1.
  apply wg_added_main in Hadds2. rewrite Hh2 in Hadds2.
  change (wg_added (take 7 main_trace)) with 15 in Hadds1.
  change (wg_added []) with 0 in Hadds2.
  rewrite !fmap_app, !fmap_cons, !wg_run_app in Hrun. cbn [snd] in Hrun.
  rewrite fmap_app, fmap_cons. cbn [snd]. rewrite count_done_app.
  destruct (wg_run 0 h1.*2) as [ch|] eqn:Eh; [|done].
  destruct (wg_run_counter _ _ _ Eh) as [Hch _]; [lia|].
  cbn [mbind option_bind wg_run] in Hrun.
  destruct (Z.eqb_spec ch 0) as [->|]; [|done].
  destruct (wg_run 0 h2.*2) as [c2|] eqn:E2; [|done].
  destruct (wg_run_counter _ _ _ E2) as [Hc2 Hpos]; [lia|].
  rewrite count_done_cons. simpl. lia.
Qed.

(** X17: in every execution each philosopher calls [wg.Done()] at most
    three times; and in every execution in which [main] closes the request
    channel, each of the five philosophers has called it exactly three times
    by then: nobody is left with a meal to take. *)
Theorem X17_all_meals_before_close :
  (∀ g (n : nat),
      execution g → (count_done (events_of (TPhilosopher n) g) ≤ 3)%nat)
  ∧ (∀ g g1 g2 (n : nat),
        execution g → g = g1 ++ (TMain, ECloseRequests) :: g2 → (n < 5)%nat →
        count_done (events_of (TPhilosopher n) g1) = 3%nat).
Proof.
  split.
  - intros g n [Hok _]. by apply philosopher_done_at_most_three.
  - intros g g1 g2 n Hex -> Hn.
    pose proof (fifteen_done_before_close _ _ Hex) as H15.
    pose proof (execution_prefix _ _ Hex) as [Hok1 _].
    rewrite (count_done_by_philosopher g1) in H15
      by (by apply execution_only_philosophers_done).
    pose proof (philosopher_done_at_most_three g1 0 (Hok1 _)).
    pose proof (philosopher_done_at_most_three g1 1 (Hok1 _)).
    pose proof (philosopher_done_at_most_three g1 2 (Hok1 _)).
    pose proof (philosopher_done_at_most_three g1 3 (Hok1 _)).
    pose proof (philosopher_done_at_most_three g1 4 (Hok1 _)).
    destruct n as [|[|[|[|[|?]]]]]; lia.
Qed.

Lemma X17_all_meals_before_close_witness :
  (count_done (events_of (TPhilosopher 2) example_run_before_close) ≤ 3)%nat
  ∧ count_done (events_of (TPhilosopher 2) example_run_before_close) = 3%nat.
Proof.
  assert (Hex : execution example_run).
  { split.
    - intros [| |n]; unfold thread_ok.
      + exists []. vm_compute. reflexivity.
      + eexists example_requests, _, _. split.
        * vm_compute. reflexivity.
        * exists []. vm_compute. reflexivity.
      + do 5 (destruct n as [|n];
              [exists example_rounds; exists []; vm_compute; reflexivity|]).
        vm_compute. reflexivity.
    - vm_compute. eexists. reflexivity. }
  assert (Hex1 : execution example_run_before_close).
  { split.
    - intros [| |n]; unfold thread_ok.
      + exists [ECloseRequests;
                EPrintln "All philosophers have finished eating, good bye"].
        vm_compute. reflexivity.
      + eexists example_requests, _, _. split.
        * vm_compute. reflexivity.
        * exists []. vm_compute. reflexivity.
      + do 5 (destruct n as [|n];
              [exists example_rounds; exists []; vm_compute; reflexivity|]).
        vm_compute. reflexivity.
    - vm_compute. eexists. reflexivity. }
  destruct X17_all_meals_before_close as [Hmost Hall]. split.
  - exact (Hmost example_run_before_close 2%nat Hex1).
  - apply (Hall example_run example_run_before_close
                (tag TMain [EPrintln "All philosophers have finished eating, good bye"])
                2%nat Hex eq_refl).
    lia.
Defined.

End Coordinator_more.
